(** * download_model.py: registry resolution, variant filtering, batch download

    A shallow embedding of [models/download_model.py] and the properties of
    its resolver, its variant filter, its downloader and its command line.

    Conventions of the embedding.
    - A Python [str] is a [string]; each character is a code point below 256,
      and [lower], [strip] act on those code points the way Python does.
    - A [dict] whose iteration order is observable (the registry, the pattern
      table) is an association list in definition order.
    - [pathlib.Path] is the POSIX flavour: a root and a list of components.
    - The hub, the file system and [argparse] are outside the script: the hub
      and the file system are oracles over an abstract world; [parser.error]
      terminates the process with status 2, as the [argparse] manual says.
    - Every exception of the collaborators is an [Exception]. Logging is
      left out: the handlers of [logging] keep their errors to themselves.
      The [print] calls of [download_model] and of [_print_usage_example]
      go to an oracle of their own, since a terminal that cannot encode a
      character (the check mark of the closing summary, a listed name)
      makes [print] raise. The registry listing of [--list] and the
      messages of [argparse] are plain text of the script and are left
      out. *)

From Stdlib Require Import String Ascii List Bool NArith Lia.
Import ListNotations.
Open Scope string_scope.
Open Scope list_scope.

(** ** Python strings *)

Module PyStr.

(** Code points below 256 that [str.lower] changes: A-Z and the Latin-1
    capitals (all of 192..222 but the multiplication sign 215). *)
Definition is_upper_cp (n : N) : bool :=
  ((65 <=? n) && (n <=? 90) || (192 <=? n) && (n <=? 222) && negb (n =? 215))%N.

Definition lower_char (c : ascii) : ascii :=
  let n := N_of_ascii c in
  if is_upper_cp n then ascii_of_N (n + 32) else c.

Fixpoint lower (s : string) : string :=
  match s with
  | EmptyString => EmptyString
  | String c t => String (lower_char c) (lower t)
  end.

(** Code points below 256 for which [str.isspace] holds. *)
Definition is_space (c : ascii) : bool :=
  let n := N_of_ascii c in
  ((9 <=? n) && (n <=? 13) || (28 <=? n) && (n <=? 32)
   || (n =? 133) || (n =? 160))%N.

Fixpoint lstrip (s : string) : string :=
  match s with
  | EmptyString => EmptyString
  | String c t => if is_space c then lstrip t else s
  end.

Fixpoint rstrip (s : string) : string :=
  match s with
  | EmptyString => EmptyString
  | String c t =>
      match rstrip t with
      | EmptyString => if is_space c then EmptyString else String c EmptyString
      | r => String c r
      end
  end.

Definition strip (s : string) : string := rstrip (lstrip s).

(** [needle in hay] *)
Fixpoint str_in (needle hay : string) : bool :=
  prefix needle hay
  || match hay with
     | EmptyString => false
     | String _ t => str_in needle t
     end.

(** [s.endswith(suffix)] *)
Fixpoint endswith (s suffix : string) : bool :=
  (s =? suffix)
  || match s with
     | EmptyString => false
     | String _ t => endswith t suffix
     end.

(** [s.split(sep)] for a one-character separator *)
Fixpoint split (sep : ascii) (s : string) : list string :=
  match s with
  | EmptyString => [EmptyString]
  | String c t =>
      if Ascii.eqb c sep then EmptyString :: split sep t
      else match split sep t with
           | [] => [String c EmptyString]
           | h :: r => String c h :: r
           end
  end.

(** [s.replace(a, b)] for one-character [a] and [b] *)
Fixpoint replace (a b : ascii) (s : string) : string :=
  match s with
  | EmptyString => EmptyString
  | String c t => String (if Ascii.eqb c a then b else c) (replace a b t)
  end.

(** [sep.join(l)] *)
Fixpoint join (sep : string) (l : list string) : string :=
  match l with
  | [] => EmptyString
  | [x] => x
  | x :: r => x ++ sep ++ join sep r
  end.

(** [x in l] for a list of strings *)
Definition mem (x : string) (l : list string) : bool :=
  existsb (String.eqb x) l.

End PyStr.

(** ** pathlib (POSIX flavour) *)

Module PyPath.

Record Path := mkPath { root : string; parts : list string }.

Definition root_of (s : string) : string :=
  match s with
  | String "/" (String "/" (String "/" _)) => "/"
  | String "/" (String "/" _) => "//"
  | String "/" _ => "/"
  | _ => EmptyString
  end.

Definition is_component (p : string) : bool :=
  negb (p =? EmptyString) && negb (p =? ".").

(** [Path(s)] *)
Definition of_string (s : string) : Path :=
  {| root := root_of s; parts := filter is_component (PyStr.split "/" s) |}.

(** [p / s] *)
Definition div (p : Path) (s : string) : Path :=
  let q := of_string s in
  if root q =? EmptyString then {| root := root p; parts := parts p ++ parts q |}
  else q.

(** [p.name] *)
Definition name (p : Path) : string := last (parts p) EmptyString.

(** [p.parent] *)
Definition parent (p : Path) : Path :=
  {| root := root p; parts := removelast (parts p) |}.

End PyPath.

Import PyStr PyPath.
Infix "//" := div (at level 40, left associativity).

(** ** Module-level tables *)

Record RegistryEntry := mkEntry {
  repo : string;
  description : string;
  architecture : string;
  size_mb : N
}.

Definition MODEL_REGISTRY : list (string * RegistryEntry) :=
  [ ("flan-t5-small",
     mkEntry "Xenova/flan-t5-small"
       "FLAN-T5 Small (60M params) - encoder-decoder for summarization/QA"
       "t5" 300);
    ("flan-t5-base",
     mkEntry "Xenova/flan-t5-base"
       "FLAN-T5 Base (220M params) - encoder-decoder for summarization/QA"
       "t5" 900);
    ("flan-t5-large",
     mkEntry "dmmagdal/flan-t5-large-onnx"
       "FLAN-T5 Large (770M params) - encoder-decoder for summarization/QA"
       "t5" 3000);
    ("distilbart",
     mkEntry "Xenova/distilbart-cnn-12-6"
       "DistilBART (306M params) - encoder-decoder for summarization"
       "bart" 1200);
    ("qwen3",
     mkEntry "onnx-community/Qwen3-1.7B-ONNX"
       "Qwen 3 1.7B Instruct - decoder-only chat model"
       "qwen" 6000);
    ("llama3",
     mkEntry "onnx-community/Llama-3.2-1B-Instruct-ONNX"
       "Llama 3.2 1B Instruct - decoder-only chat model"
       "llama" 5000);
    ("phi3",
     mkEntry "microsoft/Phi-3-mini-128k-instruct-onnx"
       "Phi-3 Mini 128k Instruct - decoder-only chat model"
       "phi" 7000) ].

Definition VARIANT_PATTERNS : list (string * list string) :=
  [ ("full", ["encoder_model.onnx"; "decoder_model.onnx";
              "decoder_with_past_model.onnx"; "model.onnx";
              "decoder_model_merged.onnx"]);
    ("fp16", ["_fp16.onnx"; "-fp16.onnx"]);
    ("int8", ["_int8.onnx"; "-int8.onnx"; "_quantized.onnx"]);
    ("q4", ["_int4.onnx"; "-int4.onnx"; "_q4.onnx"; "-q4.onnx"]) ].

Definition ESSENTIAL_FILES : list string :=
  [ "config.json"; "generation_config.json"; "tokenizer_config.json";
    "tokenizer.json"; "special_tokens_map.json"; "vocab.json"; "merges.txt";
    "vocab.txt"; "sentencepiece.bpe.model"; "tokenizer.model" ].

(** ** Dictionaries in definition order *)

Section Dict.
Context {V : Type}.

(** [d.get(k)] *)
Fixpoint dict_lookup (d : list (string * V)) (k : string) : option V :=
  match d with
  | [] => None
  | (k', v) :: r => if k =? k' then Some v else dict_lookup r k
  end.

(** [k in d] *)
Definition dict_has (d : list (string * V)) (k : string) : bool :=
  match dict_lookup d k with
  | Some _ => true
  | None => false
  end.

(** [d.get(k, default)] *)
Definition dict_get (d : list (string * V)) (k : string) (default : V) : V :=
  match dict_lookup d k with
  | Some v => v
  | None => default
  end.

(** [d.keys()] *)
Definition dict_keys (d : list (string * V)) : list string := map fst d.

(** [d.values()] *)
Definition dict_values (d : list (string * V)) : list V := map snd d.

End Dict.

(** [list(dict.fromkeys(l))]: the first occurrence of each key, in order. *)
Definition dict_fromkeys (l : list string) : list string :=
  fold_left (fun keys x => if mem x keys then keys else keys ++ [x]) l [].

(** ** filter_files_by_variants *)

Record FilterResult := mkFilterResult {
  onnx : list string;
  config : list string
}.

(** The generator of the first [any] in the [full] branch: every pattern of
    every variant, but the five names written out in the condition. *)
Definition non_base_patterns : list string :=
  filter (fun pattern =>
            negb (pattern =? "encoder_model.onnx")
            && negb (pattern =? "decoder_model.onnx")
            && negb (pattern =? "decoder_with_past_model.onnx")
            && negb (pattern =? "model.onnx")
            && negb (pattern =? "decoder_model_merged.onnx"))
         (concat (dict_values VARIANT_PATTERNS)).

(** The list literal of the second [any] in the [full] branch. *)
Definition base_names : list string :=
  [ "encoder_model.onnx"; "decoder_model.onnx";
    "decoder_with_past_model.onnx"; "model.onnx";
    "decoder_model_merged.onnx" ].

(** The two nested tests of the [full] branch, as one boolean. *)
Definition full_branch (file_lower : string) : bool :=
  if negb (existsb (fun pattern => str_in pattern file_lower) non_base_patterns)
  then
    if existsb (fun base => str_in base file_lower) base_names
    then true
    else false
  else false.

(** The [else] branch: the patterns of the tag, empty for an unknown tag. *)
Definition other_branch (variant file_lower : string) : bool :=
  let patterns := dict_get VARIANT_PATTERNS variant [] in
  existsb (fun pattern => str_in pattern file_lower) patterns.

(** [for variant in variants: ...]: [true] when the file is appended (and
    the loop left by [break]), [false] when the loop runs out. *)
Fixpoint variant_loop (file_lower : string) (variants : list string) : bool :=
  match variants with
  | [] => false
  | variant :: rest =>
      if variant =? "full" then
        if full_branch file_lower then true
        else variant_loop file_lower rest
      else
        if other_branch variant file_lower then true
        else variant_loop file_lower rest
  end.

(** The first loop over [all_files]. *)
Fixpoint scan_onnx (all_files variants : list string) : list string :=
  match all_files with
  | [] => []
  | file_path :: rest =>
      if negb (endswith file_path ".onnx")
         && negb (endswith file_path ".onnx_data")
      then scan_onnx rest variants
      else
        let file_lower := lower file_path in
        if variant_loop file_lower variants
        then file_path :: scan_onnx rest variants
        else scan_onnx rest variants
  end.

(** The second loop over [all_files]. *)
Fixpoint scan_config (all_files : list string) : list string :=
  match all_files with
  | [] => []
  | file_path :: rest =>
      let file_name := name (of_string file_path) in
      if mem file_name ESSENTIAL_FILES
      then file_path :: scan_config rest
      else if str_in "onnx" (lower file_path) && mem file_name ESSENTIAL_FILES
      then file_path :: scan_config rest
      else scan_config rest
  end.

(** [v.lower().strip()] *)
Definition normalize_variant (v : string) : string := strip (lower v).

Definition filter_files_by_variants
    (all_files : list string) (variants : option (list string)) : FilterResult :=
  let variants :=
    match variants with
    | None => ["full"; "fp16"; "int8"; "q4"]
    | Some vs => vs
    end in
  let variants := map normalize_variant variants in
  let onnx_files := scan_onnx all_files variants in
  let config_files := scan_config all_files in
  {| onnx := dict_fromkeys onnx_files;
     config := dict_fromkeys config_files |}.

(** ** Exceptions and results *)

Inductive exn :=
| ValueError (msg : string)
| KeyError (key : string)
| RepositoryNotFoundError
| HfHubHTTPError (msg : string)
| OtherException (msg : string).

Inductive res (A : Type) :=
| Ok (a : A)
| Raise (e : exn).
Arguments Ok {A} a.
Arguments Raise {A} e.

(** ** resolve_repo_id *)

Definition unknown_model (model_name : string) : exn :=
  ValueError ("Unknown model: " ++ model_name
              ++ ". Use --list to see available models.").

(** [MODEL_REGISTRY[k]["repo"]] *)
Definition registry_repo (k : string) : res string :=
  match dict_lookup MODEL_REGISTRY k with
  | Some entry => Ok (repo entry)
  | None => Raise (KeyError k)
  end.

Definition resolve_repo_id (model_name : string) : res string :=
  if dict_has MODEL_REGISTRY model_name then registry_repo model_name
  else if str_in "/" model_name then Ok model_name
  else
    let matches :=
      filter (fun name => str_in (lower model_name) (lower name))
             (dict_keys MODEL_REGISTRY) in
    match matches with
    | first :: _ => registry_repo first
    | [] => Raise (unknown_model model_name)
    end.

(** ** parse_variants *)

Definition valid_variants : list string := ["full"; "fp16"; "int8"; "q4"].

Definition invalid_variant (v : string) : exn :=
  ValueError ("Invalid variant: " ++ v ++ ". Valid options: "
              ++ join ", " valid_variants).

(** [for v in variants: if v not in valid_variants: raise ...] *)
Fixpoint check_variants (variants : list string) : res unit :=
  match variants with
  | [] => Ok tt
  | v :: rest =>
      if negb (mem v valid_variants) then Raise (invalid_variant v)
      else check_variants rest
  end.

(** The [--variants] argument is [None] when the option is absent. *)
Definition parse_variants (variants_str : option string)
  : res (option (list string)) :=
  match variants_str with
  | None => Ok None
  | Some s =>
      if s =? EmptyString then Ok None
      else
        let variants := map (fun v => lower (strip v)) (split "," s) in
        match check_variants variants with
        | Raise e => Raise e
        | Ok _ => Ok (Some variants)
        end
  end.

(** ** Effects: a state and exception monad over the outside world *)

Module Eff.

Definition M (S A : Type) : Type := S -> res A * S.

Definition ret {S A} (a : A) : M S A := fun s => (Ok a, s).

Definition raise {S A} (e : exn) : M S A := fun s => (Raise e, s).

Definition bind {S A B} (m : M S A) (k : A -> M S B) : M S B :=
  fun s =>
    match m s with
    | (Ok a, s') => k a s'
    | (Raise e, s') => (Raise e, s')
    end.

(** [try: m  except Exception as e: handler e] *)
Definition try_except {S A} (m : M S A) (handler : exn -> M S A) : M S A :=
  fun s =>
    match m s with
    | (Ok a, s') => (Ok a, s')
    | (Raise e, s') => handler e s'
    end.

Definition lift {S A} (r : res A) : M S A := fun s => (r, s).

End Eff.

Import Eff.

Notation "x <- m ;; k" := (bind m (fun x => k))
  (at level 61, m at next level, right associativity).

(** What the script asks of the hub ([EvListFiles], [EvFetch]) and of the
    file system ([EvExists], [EvMkdir]), with the answer it got. *)
Inductive event :=
| EvListFiles (repo_id : string) (r : res (list string))
| EvExists (p : Path) (r : res bool)
| EvMkdir (p : Path) (r : res unit)
| EvFetch (repo_id filename : string) (local_dir : Path) (r : res unit).

(** The [print] statements of [download_model] (lines 325-353) and of
    [_print_usage_example] (lines 367-380), each with the values it
    formats. *)
Inductive printed :=
| PRuleTop                        (* a newline, then 80 equals signs *)
| PRuleBottom                     (* 80 equals signs, then a newline *)
| PDownloading (repo_id : string)
| PVariants (variant_str : string)
| PDestination (local_dir : Path)
| POnnxModels (n : nat)           (* ONNX Models (n files): *)
| PConfigFiles (n : nat)          (* Config Files (n files): *)
| PItem (f : string)              (* two spaces, a dash, the name *)
| PEmpty                          (* print() *)
| PComplete                       (* the check mark, Download Complete! *)
| PTotalFiles (n : nat)
| PLocation (local_dir : Path)
| PUsageTitle                     (* Java Usage Example: *)
| PUsageRule                      (* 80 dashes *)
| PUsageBody (model_dir variant : string).

(** The collaborators: [list_repo_files] and [hf_hub_download] of
    [huggingface_hub], [Path.exists] and [Path.mkdir(parents=True,
    exist_ok=True)], and [print] on the standard output. Each may raise
    and may change the world. *)
Class Hub (World : Type) := {
  list_repo_files : string -> World -> res (list string) * World;
  path_exists : Path -> World -> res bool * World;
  mkdir_parents : Path -> World -> res unit * World;
  hf_hub_download : string -> string -> Path -> World -> res unit * World;
  print_out : printed -> World -> res unit * World
}.

Record ModelDownloader := mkDownloader { output_dir : Path }.

(** Parsed command line ([argparse.Namespace]). *)
Record Args := mkArgs {
  arg_list : bool;
  arg_model : option string;
  arg_variants : option string;
  arg_output_dir : option string
}.

(** Exit status of [parser.error]. *)
Definition ARGPARSE_ERROR : N := 2.

(** ** _print_usage_example

    The variant the usage example names:
    ["INT8" if not variants or "int8" in variants else "Q4" if "q4" in
    variants else "FP16" if "fp16" in variants else "FULL"]. *)

Definition usage_example_variant (variants : option (list string)) : string :=
  match variants with
  | None => "INT8"
  | Some [] => "INT8"
  | Some vs =>
      if mem "int8" vs then "INT8"
      else if mem "q4" vs then "Q4"
      else if mem "fp16" vs then "FP16"
      else "FULL"
  end.

Section Downloader.
Context {World : Type} {hub : Hub World}.

(** The world and the trace of requests so far, oldest first. *)
Definition State : Type := World * list event.

(** One request to a collaborator, recorded with its answer. *)
Definition call {A} (op : World -> res A * World) (ev : res A -> event)
  : M State A :=
  fun s =>
    let '(r, w') := op (fst s) in
    (r, (w', snd s ++ [ev r])).

Definition get_repo_files (repo_id : string) : M State (list string) :=
  try_except
    (call (list_repo_files repo_id) (EvListFiles repo_id))
    (fun e =>
       match e with
       | RepositoryNotFoundError =>
           raise (ValueError ("Repository not found: " ++ repo_id))
       | HfHubHTTPError msg =>
           raise (ValueError ("Error accessing repository " ++ repo_id
                              ++ ": " ++ msg))
       | _ => raise e
       end).

(** The body of the [for] loop of [download_files]: the [try] block appends
    [local_file] on both of its normal exits; the [except] clause logs and
    leaves [downloaded] as it was. *)
Definition download_iter (repo_id : string) (local_dir : Path)
    (file_path : string) (downloaded : list Path) : M State (list Path) :=
  try_except
    (let local_file := local_dir // file_path in
     present <- call (path_exists local_file) (EvExists local_file) ;;
     if (present : bool) then ret (downloaded ++ [local_file])
     else
       _ <- call (mkdir_parents (parent local_file))
                 (EvMkdir (parent local_file)) ;;
       _ <- call (hf_hub_download repo_id file_path local_dir)
                 (EvFetch repo_id file_path local_dir) ;;
       ret (downloaded ++ [local_file]))
    (fun _ => ret downloaded).

Fixpoint download_loop (repo_id : string) (local_dir : Path)
    (files : list string) (downloaded : list Path) : M State (list Path) :=
  match files with
  | [] => ret downloaded
  | file_path :: rest =>
      downloaded' <- download_iter repo_id local_dir file_path downloaded ;;
      download_loop repo_id local_dir rest downloaded'
  end.

Definition download_files (repo_id : string) (files : list string)
    (local_dir : Path) : M State (list Path) :=
  download_loop repo_id local_dir files [].

(** "Determine local directory name" *)
Definition dir_name_of (model_name repo_id : string) : string :=
  if dict_has MODEL_REGISTRY model_name then model_name ++ "-HF"
  else replace "/" "-" repo_id ++ "-HF".

(** One [print]: it is no request to the hub or the file system, so the
    trace stays as it is. *)
Definition say (m : printed) : M State unit :=
  fun s =>
    let '(r, w') := print_out m (fst s) in
    (r, (w', snd s)).

(** [print] statements one after the other. *)
Fixpoint say_all (ms : list printed) : M State unit :=
  match ms with
  | [] => ret tt
  | m :: rest => _ <- say m ;; say_all rest
  end.

(** [", ".join(variants) if variants else "all"] *)
Definition variant_str_of (variants : option (list string)) : string :=
  match variants with
  | None => "all"
  | Some [] => "all"
  | Some vs => join ", " vs
  end.

Definition print_usage_example (model_dir : string)
    (variants : option (list string)) : M State unit :=
  let variant := usage_example_variant variants in
  say_all [PUsageTitle; PUsageRule; PUsageBody model_dir variant; PUsageRule].

(** The summary printed before the downloads (lines 323-339). *)
Definition summary_before (repo_id : string)
    (variants : option (list string)) (local_dir : Path)
    (onnx_files config_files : list string) : list printed :=
  [PRuleTop; PDownloading repo_id; PVariants (variant_str_of variants);
   PDestination local_dir; PRuleBottom;
   POnnxModels (length onnx_files)]
  ++ map PItem onnx_files
  ++ [PEmpty; PConfigFiles (length config_files)]
  ++ map PItem config_files
  ++ [PEmpty].

(** The summary printed after the downloads (lines 348-354). *)
Definition summary_after (local_dir : Path) (total_downloaded : nat)
  : list printed :=
  [PRuleTop; PComplete; PTotalFiles total_downloaded; PLocation local_dir;
   PRuleBottom].

Definition download_model (self : ModelDownloader) (model_name : string)
    (variants : option (list string)) : M State Path :=
  repo_id <- lift (resolve_repo_id model_name) ;;
  let dir_name := dir_name_of model_name repo_id in
  let local_dir := output_dir self // dir_name in
  all_files <- get_repo_files repo_id ;;
  let filtered := filter_files_by_variants all_files variants in
  let onnx_files := onnx filtered in
  let config_files := config filtered in
  match onnx_files with
  | [] => ret local_dir
  | _ :: _ =>
      _ <- say_all (summary_before repo_id variants local_dir
                      onnx_files config_files) ;;
      downloaded_onnx <- download_files repo_id onnx_files local_dir ;;
      downloaded_config <- download_files repo_id config_files local_dir ;;
      let total_downloaded :=
        length downloaded_onnx + length downloaded_config in
      _ <- say_all (summary_after local_dir total_downloaded) ;;
      _ <- print_usage_example dir_name variants ;;
      ret local_dir
  end.

(** [sys.exit(main())]: the exit status of the process and the final state.
    [script_dir] is [Path(__file__).parent]. An [Args] is what
    [parser.parse_args()] returned. *)
Definition main (script_dir : Path) (args : Args) (s : State) : N * State :=
  let downloader :=
    mkDownloader
      match arg_output_dir args with
      | Some d => if d =? EmptyString then script_dir else of_string d
      | None => script_dir
      end in
  if arg_list args then (0%N, s)
  else
    match arg_model args with
    | None => (ARGPARSE_ERROR, s)
    | Some model =>
        if model =? EmptyString then (ARGPARSE_ERROR, s)
        else
          match parse_variants (arg_variants args) with
          | Raise (ValueError _) => (ARGPARSE_ERROR, s)
          | Raise _ => (1%N, s) (* uncaught: traceback, status 1 *)
          | Ok variants =>
              match download_model downloader model variants s with
              | (Ok _, s') => (0%N, s')
              | (Raise _, s') => (1%N, s')
              end
          end
    end.

End Downloader.

(** ** Vocabulary of the statements *)

(** A path the first loop looks at: it ends with [.onnx] or [.onnx_data]. *)
Definition is_onnx_candidate (file_path : string) : bool :=
  endswith file_path ".onnx" || endswith file_path ".onnx_data".

(** A tag that is one of the four after normalisation. *)
Definition known_variant (v : string) : bool :=
  mem (normalize_variant v) valid_variants.

(** The two-step predicate of the specification (section 4.2): the name
    holds one of the five base-model file names, and it holds no pattern of
    the [fp16], [int8] and [q4] sets. *)
Definition is_base_name (file_lower : string) : bool :=
  existsb (fun base => str_in base file_lower)
    [ "encoder_model.onnx"; "decoder_model.onnx";
      "decoder_with_past_model.onnx"; "model.onnx";
      "decoder_model_merged.onnx" ].

Definition quant_patterns : list string :=
  dict_get VARIANT_PATTERNS "fp16" []
  ++ dict_get VARIANT_PATTERNS "int8" []
  ++ dict_get VARIANT_PATTERNS "q4" [].

Definition has_quant_suffix (file_lower : string) : bool :=
  existsb (fun pattern => str_in pattern file_lower) quant_patterns.

Definition full_two_step (file_lower : string) : bool :=
  is_base_name file_lower && negb (has_quant_suffix file_lower).

(** The input is a substring of the short name, letter case apart. *)
Definition partial_match (model_name short_name : string) : bool :=
  str_in (lower model_name) (lower short_name).

(** [k] is the first key of the list that [model_name] partially matches. *)
Definition first_partial_match (model_name : string) (keys : list string)
    (k : string) : Prop :=
  exists before after,
    keys = before ++ k :: after
    /\ partial_match model_name k = true
    /\ forall k', In k' before -> partial_match model_name k' = false.

(** The name was resolved through the registry entry [k]: it is [k], or it
    is no key, has no slash, and [k] is its first partial match. *)
Definition alias_used (model_name k : string) : Prop :=
  (model_name = k /\ dict_has MODEL_REGISTRY k = true)
  \/ (dict_has MODEL_REGISTRY model_name = false
      /\ str_in "/" model_name = false
      /\ first_partial_match model_name (dict_keys MODEL_REGISTRY) k).

(** The directory named [d] directly under [p]. *)
Definition subdir (p : Path) (d : string) : Path :=
  {| root := root p; parts := parts p ++ [d] |}.

(** The requests one file of a batch causes, and the path it adds to the
    result, if any. *)
Inductive file_run (repo_id : string) (local_dir : Path) (file_path : string)
  : list event -> option Path -> Prop :=
| run_present :
    file_run repo_id local_dir file_path
      [EvExists (local_dir // file_path) (Ok true)]
      (Some (local_dir // file_path))
| run_fetched :
    file_run repo_id local_dir file_path
      [EvExists (local_dir // file_path) (Ok false);
       EvMkdir (parent (local_dir // file_path)) (Ok tt);
       EvFetch repo_id file_path local_dir (Ok tt)]
      (Some (local_dir // file_path))
| run_exists_failed e :
    file_run repo_id local_dir file_path
      [EvExists (local_dir // file_path) (Raise e)]
      None
| run_mkdir_failed e :
    file_run repo_id local_dir file_path
      [EvExists (local_dir // file_path) (Ok false);
       EvMkdir (parent (local_dir // file_path)) (Raise e)]
      None
| run_fetch_failed e :
    file_run repo_id local_dir file_path
      [EvExists (local_dir // file_path) (Ok false);
       EvMkdir (parent (local_dir // file_path)) (Ok tt);
       EvFetch repo_id file_path local_dir (Raise e)]
      None.

(** A batch: one [file_run] per file, in order, whatever each one's end. *)
Inductive batch_run (repo_id : string) (local_dir : Path)
  : list string -> list event -> list Path -> Prop :=
| batch_nil : batch_run repo_id local_dir [] [] []
| batch_cons file_path rest evs o evs' got :
    file_run repo_id local_dir file_path evs o ->
    batch_run repo_id local_dir rest evs' got ->
    batch_run repo_id local_dir (file_path :: rest) (evs ++ evs')
      (match o with Some p => p :: got | None => got end).

(** A token of the [--variants] string that is none of the four tags. *)
Definition has_invalid_token (variants_str : string) : Prop :=
  exists tok, In tok (split "," variants_str)
              /\ mem (lower (strip tok)) valid_variants = false.

(** ** A small world to run the script in

    The world is the list of paths that exist. Every repository but
    [missing/repo] lists the same five files; a fetch of a file whose name
    holds [broken] times out, any other fetch creates the file; every
    [print] goes through. *)

Module Scenario.

Definition World : Type := list Path.

Fixpoint parts_eqb (l m : list string) : bool :=
  match l, m with
  | [], [] => true
  | x :: l', y :: m' => (x =? y) && parts_eqb l' m'
  | _, _ => false
  end.

Definition path_eqb (p q : Path) : bool :=
  (root p =? root q) && parts_eqb (parts p) (parts q).

Definition listing : list string :=
  [ "onnx/encoder_model.onnx"; "onnx/broken_model.onnx";
    "onnx/decoder_model_int8.onnx"; "tokenizer.json"; "config.json" ].

Definition hub : Hub World := {|
  list_repo_files := fun repo_id w =>
    (if repo_id =? "missing/repo" then Raise RepositoryNotFoundError
     else Ok listing, w);
  path_exists := fun p w => (Ok (existsb (path_eqb p) w), w);
  mkdir_parents := fun _ w => (Ok tt, w);
  hf_hub_download := fun _ filename local_dir w =>
    if str_in "broken" filename then (Raise (OtherException "timeout"), w)
    else (Ok tt, (local_dir // filename) :: w);
  print_out := fun _ w => (Ok tt, w)
|}.

(** The same world behind a terminal that cannot encode the check mark. *)
Definition ascii_hub : Hub World := {|
  list_repo_files := list_repo_files (Hub := hub);
  path_exists := path_exists (Hub := hub);
  mkdir_parents := mkdir_parents (Hub := hub);
  hf_hub_download := hf_hub_download (Hub := hub);
  print_out := fun m w =>
    match m with
    | PComplete => (Raise (OtherException "UnicodeEncodeError"), w)
    | _ => (Ok tt, w)
    end
|}.

Definition models_dir : Path := of_string "models".

Definition start : @State World := ([models_dir // "x-HF" // "config.json"], []).

End Scenario.

(** ** More vocabulary *)

(** The test one tag makes on a lowercased name in the inner loop. *)
Definition tag_match (file_lower tag : string) : bool :=
  if tag =? "full" then full_branch file_lower
  else other_branch tag file_lower.

(** A path the first loop appends under the request [vs]. *)
Definition selected (vs : list string) (file_path : string) : bool :=
  is_onnx_candidate file_path
  && variant_loop (lower file_path) (map normalize_variant vs).

(** A path the second loop appends. *)
Definition essential (file_path : string) : bool :=
  mem (name (of_string file_path)) ESSENTIAL_FILES.

Definition is_fetch (ev : event) : bool :=
  match ev with
  | EvFetch _ _ _ _ => true
  | _ => false
  end.

Definition is_listing (ev : event) : bool :=
  match ev with
  | EvListFiles _ _ => true
  | _ => false
  end.

(** The path is there: the existence check says so and changes nothing. *)
Definition present {World : Type} {hub : Hub World} (p : Path) (w : World)
  : Prop :=
  path_exists p w = (Ok true, w).

(** A file system that nothing else writes to while the script runs: the
    existence check only reads; directory creation and fetches remove
    nothing; a fetch that succeeds leaves the file at its destination. *)
Record FileSystemLaws {World : Type} (hub : Hub World) : Prop := {
  exists_reads : forall p w, exists b, path_exists p w = (Ok b, w);
  mkdir_keeps : forall q w r w' p,
    mkdir_parents q w = (r, w') -> present p w -> present p w';
  fetch_keeps : forall repo_id f d w r w' p,
    hf_hub_download repo_id f d w = (r, w') -> present p w -> present p w';
  fetch_creates : forall repo_id f d w w',
    hf_hub_download repo_id f d w = (Ok tt, w') -> present (d // f) w'
}.

(** A fetch request for the file name [f]. *)
Definition is_fetch_of (f : string) (ev : event) : bool :=
  match ev with
  | EvFetch _ g _ _ => g =? f
  | _ => false
  end.

(** Some [print] raises [e]. *)
Definition print_raised {World : Type} {hub : Hub World} (e : exn) : Prop :=
  exists m w w0, print_out m w = (Raise e, w0).

(** Every [print] goes through. *)
Definition prints_succeed {World : Type} (hub : Hub World) : Prop :=
  forall m w, exists w', print_out m w = (Ok tt, w').

(** One file of a batch as the collaborators answer it, from the world
    before to the world after: found present by [Path.exists]; or absent,
    its directory made and the file fetched; or one of the three calls
    raised. The requests made and the path added to the result, if any. *)
Inductive file_exec {World : Type} {hub : Hub World}
    (repo_id : string) (local_dir : Path) (file_path : string)
  : World -> list event -> option Path -> World -> Prop :=
| exec_present w w1 :
    path_exists (local_dir // file_path) w = (Ok true, w1) ->
    file_exec repo_id local_dir file_path w
      [EvExists (local_dir // file_path) (Ok true)]
      (Some (local_dir // file_path)) w1
| exec_fetched w w1 w2 w3 :
    path_exists (local_dir // file_path) w = (Ok false, w1) ->
    mkdir_parents (parent (local_dir // file_path)) w1 = (Ok tt, w2) ->
    hf_hub_download repo_id file_path local_dir w2 = (Ok tt, w3) ->
    file_exec repo_id local_dir file_path w
      [EvExists (local_dir // file_path) (Ok false);
       EvMkdir (parent (local_dir // file_path)) (Ok tt);
       EvFetch repo_id file_path local_dir (Ok tt)]
      (Some (local_dir // file_path)) w3
| exec_exists_failed w w1 e :
    path_exists (local_dir // file_path) w = (Raise e, w1) ->
    file_exec repo_id local_dir file_path w
      [EvExists (local_dir // file_path) (Raise e)]
      None w1
| exec_mkdir_failed w w1 w2 e :
    path_exists (local_dir // file_path) w = (Ok false, w1) ->
    mkdir_parents (parent (local_dir // file_path)) w1 = (Raise e, w2) ->
    file_exec repo_id local_dir file_path w
      [EvExists (local_dir // file_path) (Ok false);
       EvMkdir (parent (local_dir // file_path)) (Raise e)]
      None w2
| exec_fetch_failed w w1 w2 w3 e :
    path_exists (local_dir // file_path) w = (Ok false, w1) ->
    mkdir_parents (parent (local_dir // file_path)) w1 = (Ok tt, w2) ->
    hf_hub_download repo_id file_path local_dir w2 = (Raise e, w3) ->
    file_exec repo_id local_dir file_path w
      [EvExists (local_dir // file_path) (Ok false);
       EvMkdir (parent (local_dir // file_path)) (Ok tt);
       EvFetch repo_id file_path local_dir (Raise e)]
      None w3.

(** A batch as the collaborators answer it: the files one after the other,
    each from the world the one before left. *)
Inductive batch_exec {World : Type} {hub : Hub World}
    (repo_id : string) (local_dir : Path)
  : World -> list string -> list event -> list Path -> World -> Prop :=
| bexec_nil w : batch_exec repo_id local_dir w [] [] [] w
| bexec_cons w file_path rest evs o w1 evs' got w2 :
    file_exec repo_id local_dir file_path w evs o w1 ->
    batch_exec repo_id local_dir w1 rest evs' got w2 ->
    batch_exec repo_id local_dir w (file_path :: rest) (evs ++ evs')
      (match o with Some p => p :: got | None => got end) w2.

(** * Properties *)

(** ** Lists of strings *)

Lemma mem_In (x : string) (l : list string) : mem x l = true <-> In x l.
Proof.
  unfold mem. rewrite existsb_exists. split.
  - intros [y [Hy E]]. apply String.eqb_eq in E. now subst.
  - intro Hx. exists x. split; [assumption | apply String.eqb_refl].
Qed.

Lemma mem_false_cons (x y : string) (l : list string) :
  mem x (y :: l) = false -> (x =? y) = false /\ mem x l = false.
Proof.
  unfold mem. simpl. intro E. now apply orb_false_iff in E.
Qed.

Lemma fromkeys_fold_In (x : string) (l keys : list string) :
  In x (fold_left (fun keys x => if mem x keys then keys else keys ++ [x])
                  l keys)
  <-> In x keys \/ In x l.
Proof.
  revert keys. induction l as [|y l IH]; intro keys; simpl.
  - tauto.
  - rewrite IH. destruct (mem y keys) eqn:E.
    + apply mem_In in E. split.
      * tauto.
      * intros [H | [H | H]]; subst; auto.
    + rewrite in_app_iff. simpl. tauto.
Qed.

Lemma dict_fromkeys_In (x : string) (l : list string) :
  In x (dict_fromkeys l) <-> In x l.
Proof.
  unfold dict_fromkeys. rewrite fromkeys_fold_In. simpl. tauto.
Qed.

(** ** The two loops of the filter *)

Lemma candidate_guard (f : string) :
  negb (endswith f ".onnx") && negb (endswith f ".onnx_data")
  = negb (is_onnx_candidate f).
Proof. unfold is_onnx_candidate. now rewrite negb_orb. Qed.

Lemma scan_onnx_In (f : string) (files vs : list string) :
  In f (scan_onnx files vs)
  <-> In f files /\ is_onnx_candidate f = true
      /\ variant_loop (lower f) vs = true.
Proof.
  induction files as [|g files IH]; simpl.
  - tauto.
  - rewrite candidate_guard.
    destruct (is_onnx_candidate g) eqn:Ec; simpl.
    + destruct (variant_loop (lower g) vs) eqn:Ev; simpl; rewrite IH.
      * split.
        -- intros [-> | H]; [auto | tauto].
        -- tauto.
      * split.
        -- tauto.
        -- intros [[-> | H] [H1 H2]]; [congruence | tauto].
    + rewrite IH. split.
      * tauto.
      * intros [[-> | H] [H1 H2]]; [congruence | tauto].
Qed.

Lemma scan_config_In (f : string) (files : list string) :
  In f (scan_config files)
  <-> In f files /\ mem (name (of_string f)) ESSENTIAL_FILES = true.
Proof.
  induction files as [|g files IH]; cbn [scan_config In].
  - tauto.
  - destruct (mem (name (of_string g)) ESSENTIAL_FILES) eqn:E; cbn [In].
    + rewrite IH. split.
      * intros [-> | H]; [auto | tauto].
      * tauto.
    + rewrite andb_false_r, IH. split.
      * tauto.
      * intros [[-> | H] H1]; [congruence | tauto].
Qed.

Lemma onnx_In (f : string) (files vs : list string) :
  In f (onnx (filter_files_by_variants files (Some vs)))
  <-> In f files /\ is_onnx_candidate f = true
      /\ variant_loop (lower f) (map normalize_variant vs) = true.
Proof.
  unfold filter_files_by_variants. simpl.
  now rewrite dict_fromkeys_In, scan_onnx_In.
Qed.

Lemma config_In (f : string) (files : list string)
    (variants : option (list string)) :
  In f (config (filter_files_by_variants files variants))
  <-> In f files /\ mem (name (of_string f)) ESSENTIAL_FILES = true.
Proof.
  unfold filter_files_by_variants. simpl.
  now rewrite dict_fromkeys_In, scan_config_In.
Qed.

(** ** The [full] test *)

Lemma non_base_patterns_eq : non_base_patterns = quant_patterns.
Proof. reflexivity. Qed.

Lemma full_branch_two_step (file_lower : string) :
  full_branch file_lower = full_two_step file_lower.
Proof.
  unfold full_branch, full_two_step, has_quant_suffix, is_base_name.
  rewrite non_base_patterns_eq. fold base_names.
  destruct (existsb _ quant_patterns); destruct (existsb _ base_names);
    reflexivity.
Qed.

Lemma other_branch_quant (v file_lower : string) :
  (v =? "full") = false ->
  other_branch v file_lower = true ->
  has_quant_suffix file_lower = true.
Proof.
  unfold other_branch, has_quant_suffix. intros Hfull.
  change quant_patterns
    with (["_fp16.onnx"; "-fp16.onnx"]
          ++ ["_int8.onnx"; "-int8.onnx"; "_quantized.onnx"]
          ++ ["_int4.onnx"; "-int4.onnx"; "_q4.onnx"; "-q4.onnx"]).
  unfold dict_get. cbn [VARIANT_PATTERNS dict_lookup]. rewrite Hfull.
  rewrite !existsb_app.
  destruct (v =? "fp16").
  { intros H. now rewrite H. }
  destruct (v =? "int8").
  { intros H. now rewrite H, orb_true_r. }
  destruct (v =? "q4").
  { intros H. now rewrite H, !orb_true_r. }
  discriminate.
Qed.

Lemma unknown_tag_no_patterns (v : string) :
  mem v valid_variants = false ->
  (v =? "full") = false /\ dict_get VARIANT_PATTERNS v [] = [].
Proof.
  unfold valid_variants. intro H.
  apply mem_false_cons in H as [E1 H].
  apply mem_false_cons in H as [E2 H].
  apply mem_false_cons in H as [E3 H].
  apply mem_false_cons in H as [E4 _].
  split; [assumption |].
  unfold dict_get. cbn [VARIANT_PATTERNS dict_lookup].
  now rewrite E1, E2, E3, E4.
Qed.

Lemma variant_loop_skips_unknown (file_lower : string) (vs : list string) :
  variant_loop file_lower (map normalize_variant vs)
  = variant_loop file_lower (map normalize_variant (filter known_variant vs)).
Proof.
  induction vs as [|v vs IH]; [reflexivity |].
  cbn [map filter]. destruct (known_variant v) eqn:K.
  - cbn [map variant_loop]. now rewrite IH.
  - cbn [variant_loop]. unfold known_variant in K.
    apply unknown_tag_no_patterns in K as [E1 E2].
    rewrite E1. unfold other_branch. rewrite E2. exact IH.
Qed.

Lemma scan_onnx_ext (files vs vs' : list string) :
  (forall fl, variant_loop fl vs = variant_loop fl vs') ->
  scan_onnx files vs = scan_onnx files vs'.
Proof.
  intro H. induction files as [|f files IH]; [reflexivity |].
  cbn [scan_onnx]. now rewrite H, IH.
Qed.

Lemma scan_onnx_no_tags (files : list string) : scan_onnx files [] = [].
Proof.
  induction files as [|f files IH]; [reflexivity |].
  cbn [scan_onnx variant_loop]. rewrite IH. now destruct (_ && _).
Qed.

(** ** Claims about the variant filter *)

(** C7. On the list [encoder_model.onnx, encoder_model_int8.onnx,
    decoder_model.onnx, tokenizer.json, config.json], the request [int8]
    gives the ONNX files [encoder_model_int8.onnx] and the config files
    [tokenizer.json, config.json]; the request [full] gives the ONNX files
    [encoder_model.onnx, decoder_model.onnx]. *)
Theorem end_to_end_scenario :
  let files := [ "encoder_model.onnx"; "encoder_model_int8.onnx";
                 "decoder_model.onnx"; "tokenizer.json"; "config.json" ] in
  onnx (filter_files_by_variants files (Some ["int8"]))
    = ["encoder_model_int8.onnx"]
  /\ config (filter_files_by_variants files (Some ["int8"]))
    = ["tokenizer.json"; "config.json"]
  /\ onnx (filter_files_by_variants files (Some ["full"]))
    = ["encoder_model.onnx"; "decoder_model.onnx"].
Proof.
  cbv zeta. repeat split; vm_compute; reflexivity.
Qed.

(** C2. For every file name ending in [.onnx] or [.onnx_data], the nested
    test of the [full] branch holds of the lowercased name exactly when the
    name holds one of the five base-model names and no pattern of the
    [fp16], [int8] and [q4] sets. *)
Theorem full_detection_is_two_step (file_path : string) :
  is_onnx_candidate file_path = true ->
  (full_branch (lower file_path) = true
   <-> is_base_name (lower file_path) = true
       /\ has_quant_suffix (lower file_path) = false).
Proof.
  intros _. rewrite full_branch_two_step. unfold full_two_step.
  rewrite andb_true_iff, negb_true_iff. tauto.
Qed.

(** C2 at [onnx/Decoder_Model_fp16.onnx]. *)
Lemma full_detection_is_two_step_witness :
  is_onnx_candidate "onnx/Decoder_Model_fp16.onnx" = true
  /\ (full_branch (lower "onnx/Decoder_Model_fp16.onnx") = true
      <-> is_base_name (lower "onnx/Decoder_Model_fp16.onnx") = true
          /\ has_quant_suffix (lower "onnx/Decoder_Model_fp16.onnx") = false).
Proof.
  split.
  - reflexivity.
  - apply (full_detection_is_two_step "onnx/Decoder_Model_fp16.onnx").
    reflexivity.
Defined.

(** C1. Whatever the file list: under the request [full] alone,
    [model_fp16.onnx] is not among the ONNX files, and [model.onnx] is among
    them as soon as it is listed; under the request [int8] alone,
    [model.onnx] is not among them. More generally a name with a
    quantization suffix is never selected by [full], and a name without one
    is selected by no other tag. *)
Theorem variant_exclusivity (files : list string) :
  ~ In "model_fp16.onnx"
       (onnx (filter_files_by_variants files (Some ["full"])))
  /\ (In "model.onnx" (onnx (filter_files_by_variants files (Some ["full"])))
      <-> In "model.onnx" files)
  /\ ~ In "model.onnx"
       (onnx (filter_files_by_variants files (Some ["int8"])))
  /\ (forall f,
        has_quant_suffix (lower f) = true ->
        ~ In f (onnx (filter_files_by_variants files (Some ["full"]))))
  /\ (forall f vs,
        has_quant_suffix (lower f) = false ->
        In f (onnx (filter_files_by_variants files (Some vs))) ->
        In "full" (map normalize_variant vs)
        /\ is_base_name (lower f) = true).
Proof.
  repeat split.
  - rewrite onnx_In. intros (_ & _ & H). vm_compute in H. discriminate.
  - rewrite onnx_In. tauto.
  - intro H. rewrite onnx_In. repeat split; [assumption | reflexivity..].
  - rewrite onnx_In. intros (_ & _ & H). vm_compute in H. discriminate.
  - intros f Hq. rewrite onnx_In. intros (_ & _ & H).
    change (map normalize_variant ["full"]) with ["full"] in H.
    cbn [variant_loop] in H. change ("full" =? "full") with true in H.
    cbv iota in H. rewrite full_branch_two_step in H.
    unfold full_two_step in H. rewrite Hq, andb_false_r in H. discriminate.
  - revert H0. rewrite onnx_In. intros (_ & _ & Hv).
    induction (map normalize_variant vs) as [|v l IH]; [discriminate |].
    cbn [variant_loop] in Hv. destruct (v =? "full") eqn:E.
    + apply String.eqb_eq in E. subst. now left.
    + destruct (other_branch v (lower f)) eqn:Eo.
      * apply other_branch_quant in Eo; [congruence | assumption].
      * right. now apply IH.
  - revert H0. rewrite onnx_In. intros (_ & _ & Hv).
    induction (map normalize_variant vs) as [|v l IH]; [discriminate |].
    cbn [variant_loop] in Hv. destruct (v =? "full") eqn:E.
    + destruct (full_branch (lower f)) eqn:Ef; [| now apply IH].
      rewrite full_branch_two_step in Ef. unfold full_two_step in Ef.
      now apply andb_true_iff in Ef.
    + destruct (other_branch v (lower f)) eqn:Eo; [| now apply IH].
      apply other_branch_quant in Eo; [congruence | assumption].
Qed.

(** C4, as the code has it. An unspecified request ([None]) gives the same
    result as the request [full, fp16, int8, q4], and so does the command
    line's empty [--variants] string, which [parse_variants] turns into
    [None]. *)
Theorem unspecified_request_is_all_four (files : list string) :
  filter_files_by_variants files None
  = filter_files_by_variants files (Some ["full"; "fp16"; "int8"; "q4"])
  /\ parse_variants None = Ok None
  /\ parse_variants (Some EmptyString) = Ok None.
Proof. split; [reflexivity | split; reflexivity]. Qed.

(** C4 as stated fails for the empty list: it selects no ONNX file, where
    the four tags select [model.onnx]. *)
Lemma empty_request_is_not_all_four :
  ~ (forall files,
       filter_files_by_variants files (Some [])
       = filter_files_by_variants files
           (Some ["full"; "fp16"; "int8"; "q4"])).
Proof.
  intro H. specialize (H ["model.onnx"]). vm_compute in H. discriminate.
Qed.

(** C8. The config files do not depend on the requested variants, and every
    listed path whose base name is [tokenizer.json] (or any other essential
    name) is among them. *)
Theorem config_independent_of_variants
    (files : list string) (v1 v2 : option (list string)) :
  config (filter_files_by_variants files v1)
  = config (filter_files_by_variants files v2)
  /\ (forall p,
        In p files -> name (of_string p) = "tokenizer.json" ->
        In p (config (filter_files_by_variants files v1)))
  /\ (forall p,
        In p files -> In (name (of_string p)) ESSENTIAL_FILES ->
        In p (config (filter_files_by_variants files v1))).
Proof.
  split; [reflexivity |]. split.
  - intros p Hp Hn. apply config_In. split; [assumption |].
    now rewrite Hn.
  - intros p Hp Hn. apply config_In. split; [assumption |].
    now apply mem_In.
Qed.

(** C10. The filter takes any list of tag strings and returns a result (it
    is a function into [FilterResult]: a tag is only ever looked up with
    [get] and the default [[]]): a tag that is none of the four after
    normalisation has the empty pattern list and changes nothing in the
    result, so a request of such tags alone selects no ONNX file; and
    the result depends on the tags through their lowercased, stripped form
    only, as for [INT8 ] and [int8]. *)
Theorem filter_total_on_any_tags (files vs : list string) :
  (exists r, filter_files_by_variants files (Some vs) = r)
  /\ (forall v, known_variant v = false ->
             dict_get VARIANT_PATTERNS (normalize_variant v) [] = [])
  /\ filter_files_by_variants files (Some vs)
     = filter_files_by_variants files (Some (filter known_variant vs))
  /\ ((forall v, In v vs -> known_variant v = false) ->
      onnx (filter_files_by_variants files (Some vs)) = [])
  /\ (forall vs',
        map normalize_variant vs = map normalize_variant vs' ->
        filter_files_by_variants files (Some vs)
        = filter_files_by_variants files (Some vs'))
  /\ filter_files_by_variants files (Some ["INT8 "])
     = filter_files_by_variants files (Some ["int8"]).
Proof.
  assert (Hskip : filter_files_by_variants files (Some vs)
                  = filter_files_by_variants files
                      (Some (filter known_variant vs))).
  { unfold filter_files_by_variants. f_equal. f_equal.
    apply scan_onnx_ext. intro fl. apply variant_loop_skips_unknown. }
  split; [now eexists |].
  split; [| split; [exact Hskip | split; [| split]]].
  - intros v K. now apply unknown_tag_no_patterns in K.
  - intro Hall. rewrite Hskip.
    replace (filter known_variant vs) with (@nil string).
    + unfold filter_files_by_variants. cbn [map onnx].
      now rewrite scan_onnx_no_tags.
    + clear Hskip. induction vs as [|v vs IH]; [reflexivity |].
      cbn [filter]. rewrite (Hall v (or_introl eq_refl)).
      apply IH. intros w Hw. apply Hall. now right.
  - intros vs' E. unfold filter_files_by_variants. now rewrite E.
  - reflexivity.
Qed.

(** ** The resolver *)

Lemma dict_has_lookup {V : Type} (d : list (string * V)) (k : string) :
  dict_has d k = true <-> exists v, dict_lookup d k = Some v.
Proof.
  unfold dict_has. destruct (dict_lookup d k) as [v|].
  - split; [intros _; now exists v | reflexivity].
  - split; [discriminate | intros [v Hv]; discriminate].
Qed.

Lemma dict_keys_lookup {V : Type} (d : list (string * V)) (k : string) :
  In k (dict_keys d) <-> exists v, dict_lookup d k = Some v.
Proof.
  induction d as [|[k' v'] d IH]; cbn [dict_keys map In dict_lookup fst].
  - split; [tauto | intros [v Hv]; discriminate].
  - destruct (k =? k') eqn:E.
    + apply String.eqb_eq in E. subst. split; [intros _; now exists v' | auto].
    + apply String.eqb_neq in E. fold (dict_keys d). rewrite IH.
      split; [intros [H | H]; [congruence | exact H] | auto].
Qed.

Lemma filter_first {A : Type} (f : A -> bool) (before after : list A) (k : A) :
  (forall x, In x before -> f x = false) -> f k = true ->
  filter f (before ++ k :: after) = k :: filter f after.
Proof.
  intros Hb Hk. induction before as [|x before IH]; cbn [app filter].
  - now rewrite Hk.
  - rewrite (Hb x (or_introl eq_refl)). apply IH.
    intros y Hy. apply Hb. now right.
Qed.

Lemma filter_none {A : Type} (f : A -> bool) (l : list A) :
  (forall x, In x l -> f x = false) -> filter f l = [].
Proof.
  intro H. induction l as [|x l IH]; [reflexivity |].
  cbn [filter]. rewrite (H x (or_introl eq_refl)). apply IH.
  intros y Hy. apply H. now right.
Qed.

Lemma resolve_exact (model_name : string) (e : RegistryEntry) :
  dict_lookup MODEL_REGISTRY model_name = Some e ->
  resolve_repo_id model_name = Ok (repo e).
Proof.
  unfold resolve_repo_id, registry_repo, dict_has. intros He. now rewrite He.
Qed.

Lemma resolve_verbatim (model_name : string) :
  dict_lookup MODEL_REGISTRY model_name = None ->
  str_in "/" model_name = true ->
  resolve_repo_id model_name = Ok model_name.
Proof.
  unfold resolve_repo_id, dict_has. intros Hn Hs. now rewrite Hn, Hs.
Qed.

Lemma resolve_partial (model_name k : string) (e : RegistryEntry) :
  dict_lookup MODEL_REGISTRY model_name = None ->
  str_in "/" model_name = false ->
  first_partial_match model_name (dict_keys MODEL_REGISTRY) k ->
  dict_lookup MODEL_REGISTRY k = Some e ->
  resolve_repo_id model_name = Ok (repo e).
Proof.
  unfold resolve_repo_id, registry_repo, dict_has.
  intros Hn Hs (before & after & Hk & Hm & Hb) He.
  rewrite Hn, Hs, Hk.
  rewrite (filter_first
             (fun name => str_in (lower model_name) (lower name))
             before after k Hb Hm).
  now rewrite He.
Qed.

Lemma resolve_no_match (model_name : string) :
  dict_lookup MODEL_REGISTRY model_name = None ->
  str_in "/" model_name = false ->
  (forall k, In k (dict_keys MODEL_REGISTRY) ->
             partial_match model_name k = false) ->
  resolve_repo_id model_name = Raise (unknown_model model_name).
Proof.
  unfold resolve_repo_id, dict_has. intros Hn Hs Hall. rewrite Hn, Hs.
  now rewrite (filter_none
                 (fun name => str_in (lower model_name) (lower name))
                 _ Hall).
Qed.

Lemma resolve_total (model_name : string) :
  (exists r, resolve_repo_id model_name = Ok r)
  \/ resolve_repo_id model_name = Raise (unknown_model model_name).
Proof.
  unfold resolve_repo_id, registry_repo, dict_has.
  destruct (dict_lookup MODEL_REGISTRY model_name) as [e|].
  { left. now exists (repo e). }
  destruct (str_in "/" model_name).
  { left. now exists model_name. }
  destruct (filter _ (dict_keys MODEL_REGISTRY)) as [|k l] eqn:Ef.
  { now right. }
  assert (Hk : In k (dict_keys MODEL_REGISTRY)).
  { eapply proj1. apply filter_In. rewrite Ef. now left. }
  apply dict_keys_lookup in Hk as [e He]. rewrite He.
  left. now exists (repo e).
Qed.

(** C6. [resolve_repo_id] follows this precedence: a registry short name
    gives its entry's repository; otherwise a name with a slash is returned
    as it is; otherwise the first short name, in registry order, of which
    the name is a substring letter case apart gives its repository;
    otherwise the call fails with the unknown-model error. Nothing else can
    come out of it. *)
Theorem resolve_precedence (model_name : string) :
  (forall e,
     dict_lookup MODEL_REGISTRY model_name = Some e ->
     resolve_repo_id model_name = Ok (repo e))
  /\ (dict_lookup MODEL_REGISTRY model_name = None ->
      str_in "/" model_name = true ->
      resolve_repo_id model_name = Ok model_name)
  /\ (dict_lookup MODEL_REGISTRY model_name = None ->
      str_in "/" model_name = false ->
      forall k e,
        first_partial_match model_name (dict_keys MODEL_REGISTRY) k ->
        dict_lookup MODEL_REGISTRY k = Some e ->
        resolve_repo_id model_name = Ok (repo e))
  /\ (dict_lookup MODEL_REGISTRY model_name = None ->
      str_in "/" model_name = false ->
      (forall k, In k (dict_keys MODEL_REGISTRY) ->
                 partial_match model_name k = false) ->
      resolve_repo_id model_name = Raise (unknown_model model_name))
  /\ ((exists r, resolve_repo_id model_name = Ok r)
      \/ resolve_repo_id model_name = Raise (unknown_model model_name)).
Proof.
  split; [| split; [| split; [| split]]].
  - apply resolve_exact.
  - apply resolve_verbatim.
  - intros Hn Hs k e. now apply resolve_partial.
  - apply resolve_no_match.
  - apply resolve_total.
Qed.

Example resolve_short_name :
  resolve_repo_id "qwen3" = Ok "onnx-community/Qwen3-1.7B-ONNX".
Proof. reflexivity. Qed.

Example resolve_repo_verbatim :
  resolve_repo_id "Some-Org/T5" = Ok "Some-Org/T5".
Proof. reflexivity. Qed.

Example resolve_first_partial :
  resolve_repo_id "T5" = Ok "Xenova/flan-t5-small"
  /\ first_partial_match "T5" (dict_keys MODEL_REGISTRY) "flan-t5-small".
Proof.
  split; [reflexivity |].
  exists [], ["flan-t5-base"; "flan-t5-large"; "distilbart"; "qwen3";
              "llama3"; "phi3"].
  split; [reflexivity | split; [reflexivity | intros k' []]].
Qed.

Example resolve_unknown :
  resolve_repo_id "gpt2" = Raise (unknown_model "gpt2").
Proof. reflexivity. Qed.

(** ** Paths *)

Lemma str_in_slash_cons (c : ascii) (t : string) :
  str_in "/" (String c t) = Ascii.eqb c "/" || str_in "/" t.
Proof.
  cbn [str_in prefix]. destruct (ascii_dec "/" c) as [<- | Hne].
  - now destruct t.
  - replace (Ascii.eqb c "/") with false; [reflexivity |].
    symmetry. apply Ascii.eqb_neq. congruence.
Qed.

Lemma split_no_slash (s : string) :
  str_in "/" s = false -> split "/" s = [s].
Proof.
  induction s as [|c t IH]; [reflexivity |].
  rewrite str_in_slash_cons. intro H. apply orb_false_iff in H as [Hc Ht].
  cbn [split]. now rewrite Hc, (IH Ht).
Qed.

Lemma root_of_no_slash (s : string) :
  str_in "/" s = false -> root_of s = EmptyString.
Proof.
  destruct s as [|c t]; [reflexivity |].
  rewrite str_in_slash_cons. intro H. apply orb_false_iff in H as [Hc _].
  destruct c as [[] [] [] [] [] [] [] []]; try reflexivity.
  discriminate Hc.
Qed.

Lemma div_single (out : Path) (d : string) :
  str_in "/" d = false -> is_component d = true -> out // d = subdir out d.
Proof.
  intros Hs Hc. unfold div, of_string. cbn [root parts].
  rewrite (root_of_no_slash d Hs), (split_no_slash d Hs).
  cbn [filter]. now rewrite Hc.
Qed.

Lemma replace_no_slash (r suffix : string) :
  str_in "/" suffix = false ->
  str_in "/" (replace "/" "-" r ++ suffix) = false.
Proof.
  intro Hs. induction r as [|c r IH]; [exact Hs |].
  cbn [replace append]. rewrite str_in_slash_cons, IH, orb_false_r.
  destruct (Ascii.eqb c "/") eqn:E; [reflexivity | exact E].
Qed.

Lemma is_component_HF (x : string) : is_component (x ++ "-HF") = true.
Proof.
  destruct x as [|c [|c' x]]; [reflexivity | |].
  - unfold is_component. cbn. now destruct (Ascii.eqb c ".").
  - unfold is_component. cbn. destruct (Ascii.eqb c "."); reflexivity.
Qed.

Lemma registry_key_no_slash (k : string) :
  dict_has MODEL_REGISTRY k = true -> str_in "/" (k ++ "-HF") = false.
Proof.
  intro H. apply dict_has_lookup, dict_keys_lookup in H.
  cbn in H.
  repeat (destruct H as [<- | H]; [reflexivity |]). contradiction.
Qed.

Lemma dir_name_single (out : Path) (model_name repo_id : string) :
  out // dir_name_of model_name repo_id
  = subdir out (dir_name_of model_name repo_id).
Proof.
  apply div_single; unfold dir_name_of.
  - destruct (dict_has MODEL_REGISTRY model_name) eqn:E.
    + now apply registry_key_no_slash.
    + now apply replace_no_slash.
  - destruct (dict_has MODEL_REGISTRY model_name); apply is_component_HF.
Qed.

(** ** Argument validation *)

Lemma check_variants_raises (l : list string) :
  (exists v, In v l /\ mem v valid_variants = false) ->
  exists v', check_variants l = Raise (invalid_variant v').
Proof.
  induction l as [|x l IH]; intros (v & Hv & Hm).
  - destruct Hv.
  - cbn [check_variants]. destruct (mem x valid_variants) eqn:Ex.
    + cbn [negb]. apply IH. exists v. split; [| exact Hm].
      destruct Hv as [<- | Hv]; [congruence | exact Hv].
    + cbn [negb]. now exists x.
Qed.

Lemma parse_variants_raises (vs : string) :
  vs <> EmptyString -> has_invalid_token vs ->
  exists v, parse_variants (Some vs) = Raise (invalid_variant v).
Proof.
  intros Hne (tok & Hin & Hbad). unfold parse_variants.
  apply String.eqb_neq in Hne. rewrite Hne.
  destruct (check_variants_raises
              (map (fun v => lower (strip v)) (split "," vs))) as [v Hv].
  - exists (lower (strip tok)). split; [| exact Hbad].
    now apply (in_map (fun v => lower (strip v))).
  - exists v. now rewrite Hv.
Qed.

(** ** The downloader and the command line *)

Section DownloaderProperties.
Context {World : Type} {hub : Hub World}.

Lemma download_iter_run (repo_id : string) (local_dir : Path)
    (file_path : string) (downloaded : list Path) (s : State) :
  exists evs o w',
    download_iter repo_id local_dir file_path downloaded s
    = (Ok (match o with Some p => downloaded ++ [p] | None => downloaded end),
       (w', snd s ++ evs))
    /\ file_run repo_id local_dir file_path evs o.
Proof.
  unfold download_iter, try_except, bind, call, ret.
  destruct s as [w tr]. cbn [fst snd].
  destruct (path_exists (local_dir // file_path) w) as [[[|]|e] w1].
  - exists [EvExists (local_dir // file_path) (Ok true)],
           (Some (local_dir // file_path)), w1.
    split; [reflexivity | constructor].
  - cbn [fst snd].
    destruct (mkdir_parents (parent (local_dir // file_path)) w1)
      as [[[]|e] w2].
    + cbn [fst snd].
      destruct (hf_hub_download repo_id file_path local_dir w2)
        as [[[]|e] w3].
      * eexists _, (Some (local_dir // file_path)), w3.
        rewrite <- !app_assoc. split; [reflexivity | apply run_fetched].
      * eexists _, None, w3.
        rewrite <- !app_assoc. split; [reflexivity | apply run_fetch_failed].
    + eexists _, None, w2.
      rewrite <- !app_assoc. split; [reflexivity | apply run_mkdir_failed].
  - eexists _, None, w1. split; [reflexivity | apply run_exists_failed].
Qed.

Lemma download_loop_run (repo_id : string) (local_dir : Path)
    (files : list string) :
  forall (downloaded : list Path) (s : State),
  exists evs got w',
    download_loop repo_id local_dir files downloaded s
    = (Ok (downloaded ++ got), (w', snd s ++ evs))
    /\ batch_run repo_id local_dir files evs got.
Proof.
  induction files as [|f files IH]; intros downloaded s.
  - exists [], [], (fst s). rewrite !app_nil_r. destruct s.
    split; [reflexivity | constructor].
  - cbn [download_loop]. unfold bind.
    destruct (download_iter_run repo_id local_dir f downloaded s)
      as (evs & o & w1 & E & Hrun).
    rewrite E.
    destruct (IH (match o with Some p => downloaded ++ [p]
                          | None => downloaded end)
                 (w1, snd s ++ evs))
      as (evs' & got & w2 & E' & Hbatch).
    rewrite E'. cbn [snd].
    exists (evs ++ evs'), (match o with Some p => p :: got | None => got end),
           w2.
    split.
    + rewrite <- app_assoc. destruct o; [rewrite <- app_assoc |]; reflexivity.
    + now constructor.
Qed.

Lemma file_run_some (repo_id : string) (local_dir : Path) (f : string)
    (evs : list event) (p : Path) :
  file_run repo_id local_dir f evs (Some p) ->
  p = local_dir // f
  /\ (In (EvExists p (Ok true)) evs
      \/ In (EvFetch repo_id f local_dir (Ok tt)) evs).
Proof.
  inversion 1; subst; (split; [reflexivity |]); cbn; tauto.
Qed.

Lemma file_run_exists_true (repo_id : string) (local_dir : Path) (f : string)
    (evs : list event) (o : option Path) (p : Path) :
  file_run repo_id local_dir f evs o ->
  In (EvExists p (Ok true)) evs -> o = Some p.
Proof.
  inversion 1; subst; cbn; intro Hin;
    repeat (destruct Hin as [Hin | Hin]; [try discriminate Hin |]);
    try contradiction.
  now inversion Hin.
Qed.

Lemma file_run_fetch (repo_id : string) (local_dir : Path) (f g : string)
    (evs : list event) (o : option Path) (r : res unit) :
  file_run repo_id local_dir f evs o ->
  In (EvFetch repo_id g local_dir r) evs ->
  g = f /\ (r = Ok tt -> o = Some (local_dir // f)).
Proof.
  inversion 1; subst; cbn; intro Hin;
    repeat (destruct Hin as [Hin | Hin]; [try discriminate Hin |]);
    try contradiction;
    inversion Hin; subst; (split; [reflexivity |]);
    [reflexivity | discriminate].
Qed.

Lemma batch_run_fetch_file (repo_id : string) (local_dir : Path)
    (files : list string) (evs : list event) (got : list Path)
    (g : string) (r : res unit) :
  batch_run repo_id local_dir files evs got ->
  In (EvFetch repo_id g local_dir r) evs -> In g files.
Proof.
  induction 1 as [|f rest evs o evs' got Hrun Hbatch IH]; intro Hin.
  - destruct Hin.
  - apply in_app_or in Hin as [Hin | Hin].
    + left. symmetry. exact (proj1 (file_run_fetch _ _ _ _ _ _ _ Hrun Hin)).
    + right. now apply IH.
Qed.

Lemma batch_run_checks_all (repo_id : string) (local_dir : Path)
    (files : list string) (evs : list event) (got : list Path) :
  batch_run repo_id local_dir files evs got ->
  forall f, In f files -> exists r, In (EvExists (local_dir // f) r) evs.
Proof.
  induction 1 as [|f rest evs o evs' got Hrun Hbatch IH]; intros g Hg.
  - destruct Hg.
  - destruct Hg as [<- | Hg].
    + inversion Hrun; subst; eexists; apply in_or_app; left; now left.
    + destruct (IH g Hg) as [r Hr]. exists r. apply in_or_app. now right.
Qed.

Lemma batch_run_In (repo_id : string) (local_dir : Path)
    (files : list string) (evs : list event) (got : list Path) :
  batch_run repo_id local_dir files evs got ->
  forall p,
    In p got
    <-> In (EvExists p (Ok true)) evs
        \/ exists f, In f files /\ p = local_dir // f
                     /\ In (EvFetch repo_id f local_dir (Ok tt)) evs.
Proof.
  induction 1 as [|f rest evs o evs' got Hrun Hbatch IH]; intro p.
  - cbn. split; [tauto | intros [[] | (f & [] & _)]].
  - assert (Hrest : In p got ->
                    In p (match o with Some q => q :: got | None => got end)).
    { destruct o; [now right | trivial]. }
    split.
    + intro Hp.
      assert (Hcase : o = Some p \/ In p got).
      { destruct o as [q|]; [destruct Hp as [-> | Hp]|]; auto. }
      destruct Hcase as [-> | Hgot].
      * destruct (file_run_some _ _ _ _ _ Hrun) as [Hp' [Hex | Hfetch]].
        -- left. apply in_or_app. now left.
        -- right. exists f. split; [now left | split; [exact Hp' |]].
           apply in_or_app. now left.
      * apply IH in Hgot as [Hex | (g & Hg & Hpg & Hfetch)].
        -- left. apply in_or_app. now right.
        -- right. exists g. split; [now right | split; [exact Hpg |]].
           apply in_or_app. now right.
    + intros [Hex | (g & Hg & Hpg & Hfetch)].
      * apply in_app_or in Hex as [Hex | Hex].
        -- rewrite (file_run_exists_true _ _ _ _ _ _ Hrun Hex). now left.
        -- apply Hrest, IH. now left.
      * apply in_app_or in Hfetch as [Hfetch | Hfetch].
        -- destruct (file_run_fetch _ _ _ _ _ _ _ Hrun Hfetch) as [-> Ho].
           rewrite (Ho eq_refl), Hpg. now left.
        -- apply Hrest, IH. right. exists g.
           split; [| split; [exact Hpg | exact Hfetch]].
           exact (batch_run_fetch_file _ _ _ _ _ _ _ Hbatch Hfetch).
Qed.

Lemma download_iter_exec (repo_id : string) (local_dir : Path)
    (file_path : string) (downloaded : list Path) (s : State) :
  exists evs o w',
    download_iter repo_id local_dir file_path downloaded s
    = (Ok (match o with Some p => downloaded ++ [p] | None => downloaded end),
       (w', snd s ++ evs))
    /\ file_exec repo_id local_dir file_path (fst s) evs o w'.
Proof.
  unfold download_iter, try_except, bind, call, ret.
  destruct s as [w tr]. cbn [fst snd].
  destruct (path_exists (local_dir // file_path) w) as [[[|]|e] w1] eqn:E1.
  - exists [EvExists (local_dir // file_path) (Ok true)],
           (Some (local_dir // file_path)), w1.
    split; [reflexivity | now apply exec_present].
  - cbn [fst snd].
    destruct (mkdir_parents (parent (local_dir // file_path)) w1)
      as [[[]|e] w2] eqn:E2.
    + cbn [fst snd].
      destruct (hf_hub_download repo_id file_path local_dir w2)
        as [[[]|e] w3] eqn:E3.
      * eexists _, (Some (local_dir // file_path)), w3.
        rewrite <- !app_assoc. split; [reflexivity |].
        now apply (exec_fetched _ _ _ w w1 w2 w3).
      * eexists _, None, w3.
        rewrite <- !app_assoc. split; [reflexivity |].
        now apply (exec_fetch_failed _ _ _ w w1 w2 w3).
    + eexists _, None, w2.
      rewrite <- !app_assoc. split; [reflexivity |].
      now apply (exec_mkdir_failed _ _ _ w w1 w2).
  - eexists _, None, w1. split; [reflexivity |].
    now apply exec_exists_failed.
Qed.

Lemma download_loop_exec (repo_id : string) (local_dir : Path)
    (files : list string) :
  forall (downloaded : list Path) (s : State),
  exists evs got w',
    download_loop repo_id local_dir files downloaded s
    = (Ok (downloaded ++ got), (w', snd s ++ evs))
    /\ batch_exec repo_id local_dir (fst s) files evs got w'.
Proof.
  induction files as [|f files IH]; intros downloaded s.
  - exists [], [], (fst s). rewrite !app_nil_r. destruct s.
    split; [reflexivity | constructor].
  - cbn [download_loop]. unfold bind.
    destruct (download_iter_exec repo_id local_dir f downloaded s)
      as (evs & o & w1 & E & Hexec).
    rewrite E.
    destruct (IH (match o with Some p => downloaded ++ [p]
                          | None => downloaded end)
                 (w1, snd s ++ evs))
      as (evs' & got & w2 & E' & Hbatch).
    rewrite E'. cbn [fst snd] in *.
    exists (evs ++ evs'), (match o with Some p => p :: got | None => got end),
           w2.
    split.
    + rewrite <- app_assoc. destruct o; [rewrite <- app_assoc |]; reflexivity.
    + now apply (bexec_cons _ _ _ _ _ _ _ w1).
Qed.

Lemma file_exec_run (repo_id : string) (local_dir : Path) (f : string)
    (w w' : World) (evs : list event) (o : option Path) :
  file_exec repo_id local_dir f w evs o w' ->
  file_run repo_id local_dir f evs o.
Proof. inversion 1; subst; constructor. Qed.

Lemma batch_exec_run (repo_id : string) (local_dir : Path)
    (files : list string) (w w' : World) (evs : list event)
    (got : list Path) :
  batch_exec repo_id local_dir w files evs got w' ->
  batch_run repo_id local_dir files evs got.
Proof.
  induction 1 as [|w f rest evs o w1 evs' got w2 Hfile Hrest IH].
  - constructor.
  - constructor; [exact (file_exec_run _ _ _ _ _ _ _ Hfile) | exact IH].
Qed.

Lemma batch_exec_present_head (repo_id : string) (local_dir : Path)
    (f : string) (rest : list string) (w w1 w' : World)
    (evs : list event) (got : list Path) :
  batch_exec repo_id local_dir w (f :: rest) evs got w' ->
  path_exists (local_dir // f) w = (Ok true, w1) ->
  exists evs' got',
    evs = EvExists (local_dir // f) (Ok true) :: evs'
    /\ got = (local_dir // f) :: got'
    /\ batch_exec repo_id local_dir w1 rest evs' got' w'.
Proof.
  intros Hb Hp.
  inversion Hb as [| w0 f' rest' evs0 o w1' evs' got' w2 Hfile Hrest];
    subst.
  inversion Hfile; subst;
    match goal with
    | H : path_exists _ _ = _ |- _ => rewrite Hp in H; inversion H; subst
    end.
  exists evs', got'. now repeat split.
Qed.

Lemma batch_exec_fetch_failed_head (repo_id : string) (local_dir : Path)
    (f : string) (rest : list string) (w w1 w2 w3 w' : World) (e : exn)
    (evs : list event) (got : list Path) :
  batch_exec repo_id local_dir w (f :: rest) evs got w' ->
  path_exists (local_dir // f) w = (Ok false, w1) ->
  mkdir_parents (parent (local_dir // f)) w1 = (Ok tt, w2) ->
  hf_hub_download repo_id f local_dir w2 = (Raise e, w3) ->
  exists evs',
    evs = [EvExists (local_dir // f) (Ok false);
           EvMkdir (parent (local_dir // f)) (Ok tt);
           EvFetch repo_id f local_dir (Raise e)] ++ evs'
    /\ batch_exec repo_id local_dir w3 rest evs' got w'.
Proof.
  intros Hb Hp Hm Hf.
  inversion Hb as [| w0 f' rest' evs0 o w1' evs' got' w2' Hfile Hrest];
    subst.
  inversion Hfile as [? ? H1 | ? ? ? ? H1 H2 H3 | ? ? ? H1
                      | ? ? ? ? H1 H2 | ? ? ? ? ? H1 H2 H3]; subst;
    rewrite Hp in H1; inversion H1; subst;
    rewrite Hm in H2; inversion H2; subst;
    rewrite Hf in H3; inversion H3; subst.
  exists evs'. now split.
Qed.

(** C9. [download_files] always returns, and its run is the batch as the
    collaborators answer it, file after file, each from the world the one
    before left. A file that [Path.exists] finds present is added to the
    result and the next request is for the next file: none is made to
    [hf_hub_download] for it. A fetch that raises adds nothing and the
    rest of the batch is run from the world it left; so is it for a check
    or a directory creation that raises. Every file of the batch is looked
    at, and the paths returned are exactly those found present or fetched
    with success. *)
Theorem download_files_best_effort (repo_id : string) (files : list string)
    (local_dir : Path) (s : State) :
  exists evs got w',
    download_files repo_id files local_dir s = (Ok got, (w', snd s ++ evs))
    /\ batch_exec repo_id local_dir (fst s) files evs got w'
    /\ (forall f rest w1,
          files = f :: rest ->
          path_exists (local_dir // f) (fst s) = (Ok true, w1) ->
          exists evs' got',
            evs = EvExists (local_dir // f) (Ok true) :: evs'
            /\ got = (local_dir // f) :: got'
            /\ batch_exec repo_id local_dir w1 rest evs' got' w')
    /\ (forall f rest w1 w2 w3 e,
          files = f :: rest ->
          path_exists (local_dir // f) (fst s) = (Ok false, w1) ->
          mkdir_parents (parent (local_dir // f)) w1 = (Ok tt, w2) ->
          hf_hub_download repo_id f local_dir w2 = (Raise e, w3) ->
          exists evs',
            evs = [EvExists (local_dir // f) (Ok false);
                   EvMkdir (parent (local_dir // f)) (Ok tt);
                   EvFetch repo_id f local_dir (Raise e)] ++ evs'
            /\ batch_exec repo_id local_dir w3 rest evs' got w')
    /\ batch_run repo_id local_dir files evs got
    /\ (forall f, In f files ->
                  exists r, In (EvExists (local_dir // f) r) evs)
    /\ (forall p,
          In p got
          <-> In (EvExists p (Ok true)) evs
              \/ exists f, In f files /\ p = local_dir // f
                           /\ In (EvFetch repo_id f local_dir (Ok tt)) evs).
Proof.
  destruct (download_loop_exec repo_id local_dir files [] s)
    as (evs & got & w' & E & Hexec).
  pose proof (batch_exec_run _ _ _ _ _ _ _ Hexec) as Hbatch.
  exists evs, got, w'. split; [exact E |]. split; [exact Hexec |].
  split; [| split; [| split; [exact Hbatch | split]]].
  - intros f rest w1 -> Hp.
    exact (batch_exec_present_head _ _ _ _ _ _ _ _ _ Hexec Hp).
  - intros f rest w1 w2 w3 e -> Hp Hm Hf.
    exact (batch_exec_fetch_failed_head _ _ _ _ _ _ _ _ _ _ _ _
             Hexec Hp Hm Hf).
  - exact (batch_run_checks_all _ _ _ _ _ Hbatch).
  - exact (batch_run_In _ _ _ _ _ Hbatch).
Qed.

(** The two ends of a run the claim singles out, read off the oracles. *)
Lemma download_iter_present (repo_id : string) (local_dir : Path)
    (file_path : string) (downloaded : list Path) (s : State) (w1 : World) :
  path_exists (local_dir // file_path) (fst s) = (Ok true, w1) ->
  download_iter repo_id local_dir file_path downloaded s
  = (Ok (downloaded ++ [local_dir // file_path]),
     (w1, snd s ++ [EvExists (local_dir // file_path) (Ok true)])).
Proof.
  intro E. unfold download_iter, try_except, bind, call, ret. now rewrite E.
Qed.

Lemma download_iter_fetch_failed (repo_id : string) (local_dir : Path)
    (file_path : string) (downloaded : list Path) (s : State)
    (w1 w2 w3 : World) (e : exn) :
  path_exists (local_dir // file_path) (fst s) = (Ok false, w1) ->
  mkdir_parents (parent (local_dir // file_path)) w1 = (Ok tt, w2) ->
  hf_hub_download repo_id file_path local_dir w2 = (Raise e, w3) ->
  download_iter repo_id local_dir file_path downloaded s
  = (Ok downloaded,
     (w3, snd s ++ [EvExists (local_dir // file_path) (Ok false);
                    EvMkdir (parent (local_dir // file_path)) (Ok tt);
                    EvFetch repo_id file_path local_dir (Raise e)])).
Proof.
  intros E1 E2 E3. unfold download_iter, try_except, bind, call, ret.
  rewrite E1. cbn [fst snd]. rewrite E2. cbn [fst snd]. rewrite E3.
  cbn [fst snd]. now rewrite <- !app_assoc.
Qed.

Lemma download_files_returns (repo_id : string) (files : list string)
    (local_dir : Path) (s : State) :
  exists got s', download_files repo_id files local_dir s = (Ok got, s').
Proof.
  destruct (download_loop_run repo_id local_dir files [] s)
    as (evs & got & w' & E & _).
  now exists got, (w', snd s ++ evs).
Qed.

Lemma say_all_outcome (ms : list printed) :
  forall s : State,
  exists r w',
    say_all ms s = (r, (w', snd s))
    /\ (r = Ok tt
        \/ exists e m w w0,
             r = Raise e /\ In m ms /\ print_out m w = (Raise e, w0)).
Proof.
  induction ms as [|m ms IH]; intro s; cbn [say_all].
  - exists (Ok tt), (fst s). destruct s. split; [reflexivity | now left].
  - unfold bind, say.
    destruct (print_out m (fst s)) as [[[]|e] w1] eqn:E.
    + destruct (IH (w1, snd s)) as (r & w' & E' & Hr).
      exists r, w'. split; [exact E' |].
      destruct Hr as [-> | (e & m' & w & w0 & -> & Hin & Hp)];
        [now left | right].
      exists e, m', w, w0. split; [reflexivity |].
      split; [now right | exact Hp].
    + exists (Raise e), w1. split; [reflexivity | right].
      exists e, m, (fst s), w1. split; [reflexivity |].
      split; [now left | exact E].
Qed.

Lemma say_all_succeeds (ms : list printed) :
  prints_succeed hub ->
  forall s : State, exists w', say_all ms s = (Ok tt, (w', snd s)).
Proof.
  intro Hp. induction ms as [|m ms IH]; intro s; cbn [say_all].
  - exists (fst s). now destruct s.
  - unfold bind, say. destruct (Hp m (fst s)) as [w1 E]. rewrite E.
    exact (IH (w1, snd s)).
Qed.

Lemma download_model_local_dir (self : ModelDownloader) (model_name : string)
    (variants : option (list string)) (s s' : State) (p : Path) :
  download_model self model_name variants s = (Ok p, s') ->
  exists repo_id,
    resolve_repo_id model_name = Ok repo_id
    /\ p = subdir (output_dir self) (dir_name_of model_name repo_id).
Proof.
  unfold download_model, print_usage_example, bind, lift, ret.
  destruct (resolve_repo_id model_name) as [repo_id|e]; [| discriminate].
  intro H. exists repo_id. split; [reflexivity |].
  rewrite <- dir_name_single.
  destruct (get_repo_files repo_id s) as [[all_files|e] s1];
    [| discriminate].
  destruct (onnx (filter_files_by_variants all_files variants)) as [|f l].
  - now inversion H.
  - repeat match type of H with
           | context [match ?x with pair _ _ => _ end] =>
               destruct x as [[?|?] ?]; try discriminate H
           end.
    now inversion H.
Qed.

Lemma download_model_returns (self : ModelDownloader) (model_name : string)
    (variants : option (list string)) (s : State)
    (repo_id : string) (all_files : list string) (w1 : World) :
  prints_succeed hub ->
  resolve_repo_id model_name = Ok repo_id ->
  list_repo_files repo_id (fst s) = (Ok all_files, w1) ->
  exists s',
    download_model self model_name variants s
    = (Ok (subdir (output_dir self) (dir_name_of model_name repo_id)), s').
Proof.
  intros Hp Hr Hl.
  unfold download_model, print_usage_example, bind, lift, ret. rewrite Hr.
  unfold get_repo_files, try_except, call. rewrite Hl.
  rewrite dir_name_single.
  destruct (onnx (filter_files_by_variants all_files variants)) as [|f l].
  - eexists. reflexivity.
  - match goal with
    | |- context [say_all ?ms ?st] =>
        destruct (say_all_succeeds ms Hp st) as (w2 & E0)
    end.
    rewrite E0.
    match goal with
    | |- context [download_files ?r ?fs ?d ?st] =>
        destruct (download_files_returns r fs d st) as (g1 & s2 & E1)
    end.
    rewrite E1.
    match goal with
    | |- context [download_files ?r ?fs ?d ?st] =>
        destruct (download_files_returns r fs d st) as (g2 & s3 & E2)
    end.
    rewrite E2.
    match goal with
    | |- context [say_all (summary_after ?d ?n) ?st] =>
        destruct (say_all_succeeds (summary_after d n) Hp st) as (w3 & E3)
    end.
    rewrite E3.
    match goal with
    | |- context [say_all ?ms ?st] =>
        destruct (say_all_succeeds ms Hp st) as (w4 & E4)
    end.
    rewrite E4. eexists. reflexivity.
Qed.

(** C3, as the code has it. When [download_model] returns, the directory it
    returns is a single new component under the output directory: the short
    name plus [-HF] when the name given is itself a registry short name; the
    repository id with every slash turned into a dash, plus [-HF], in the
    other cases, both for a name resolved by partial match (the repository
    of the first matching short name) and for a repository id given as it
    is. *)
Theorem download_dir_by_resolution (self : ModelDownloader)
    (model_name : string) (variants : option (list string))
    (s s' : State) (p : Path) :
  download_model self model_name variants s = (Ok p, s') ->
  (dict_has MODEL_REGISTRY model_name = true ->
   p = subdir (output_dir self) (model_name ++ "-HF"))
  /\ (forall k e,
        dict_has MODEL_REGISTRY model_name = false ->
        str_in "/" model_name = false ->
        first_partial_match model_name (dict_keys MODEL_REGISTRY) k ->
        dict_lookup MODEL_REGISTRY k = Some e ->
        p = subdir (output_dir self) (replace "/" "-" (repo e) ++ "-HF"))
  /\ (dict_has MODEL_REGISTRY model_name = false ->
      str_in "/" model_name = true ->
      p = subdir (output_dir self) (replace "/" "-" model_name ++ "-HF")).
Proof.
  intro H. apply download_model_local_dir in H as (repo_id & Hr & ->).
  unfold dir_name_of. split; [| split].
  - intro Hk. now rewrite Hk.
  - intros k e Hk Hs Hm He. rewrite Hk.
    assert (Hn : dict_lookup MODEL_REGISTRY model_name = None).
    { unfold dict_has in Hk.
      now destruct (dict_lookup MODEL_REGISTRY model_name). }
    rewrite (resolve_partial model_name k e Hn Hs Hm He) in Hr.
    now inversion Hr.
  - intros Hk Hs. rewrite Hk.
    assert (Hn : dict_lookup MODEL_REGISTRY model_name = None).
    { unfold dict_has in Hk.
      now destruct (dict_lookup MODEL_REGISTRY model_name). }
    rewrite (resolve_verbatim model_name Hn Hs) in Hr. now inversion Hr.
Qed.

(** C5, as the code has it. When the [--variants] string is not empty and
    holds a token that is none of the four tags, the process ends with no
    request to the hub or to the file system at all: with status 0 under
    [--list], which is handled first, and with the status of [parser.error],
    2, otherwise. *)
Theorem invalid_variant_exit (script_dir : Path) (args : Args) (s : State)
    (vs : string) :
  arg_variants args = Some vs ->
  vs <> EmptyString ->
  has_invalid_token vs ->
  main script_dir args s
  = (if arg_list args then 0%N else ARGPARSE_ERROR, s).
Proof.
  intros Hv Hne Hbad. unfold main.
  destruct (arg_list args); [reflexivity |].
  destruct (arg_model args) as [model|]; [| reflexivity].
  destruct (model =? EmptyString); [reflexivity |].
  rewrite Hv. destruct (parse_variants_raises vs Hne Hbad) as [v E].
  now rewrite E.
Qed.

End DownloaderProperties.

(** ** The script in the small world *)

(** C3 at the name [qwen], resolved by partial match to [qwen3]. *)
Lemma download_dir_by_resolution_witness :
  fst (download_model (hub := Scenario.hub)
         (mkDownloader Scenario.models_dir) "qwen" None Scenario.start)
  = Ok (subdir Scenario.models_dir "onnx-community-Qwen3-1.7B-ONNX-HF")
  /\ first_partial_match "qwen" (dict_keys MODEL_REGISTRY) "qwen3"
  /\ forall e,
       dict_lookup MODEL_REGISTRY "qwen3" = Some e ->
       subdir Scenario.models_dir "onnx-community-Qwen3-1.7B-ONNX-HF"
       = subdir Scenario.models_dir (replace "/" "-" (repo e) ++ "-HF").
Proof.
  assert (Hfirst : first_partial_match "qwen" (dict_keys MODEL_REGISTRY)
                     "qwen3").
  { exists ["flan-t5-small"; "flan-t5-base"; "flan-t5-large"; "distilbart"],
           ["llama3"; "phi3"].
    split; [reflexivity | split; [reflexivity |]].
    intros k' Hk'. cbn in Hk'.
    repeat (destruct Hk' as [<- | Hk']; [reflexivity |]). contradiction. }
  split; [vm_compute; reflexivity | split; [exact Hfirst |]].
  intros e He.
  refine (proj1 (proj2
    (download_dir_by_resolution (hub := Scenario.hub)
       (mkDownloader Scenario.models_dir) "qwen" None Scenario.start
       (snd (download_model (hub := Scenario.hub)
               (mkDownloader Scenario.models_dir) "qwen" None
               Scenario.start))
       (subdir Scenario.models_dir "onnx-community-Qwen3-1.7B-ONNX-HF")
       _))
    "qwen3" e eq_refl eq_refl Hfirst He).
  vm_compute. reflexivity.
Defined.

(** C3 as stated fails for a partial match: [qwen] is resolved through the
    short name [qwen3], and the directory is named after the repository,
    not [qwen3-HF]. *)
Lemma partial_match_dir_is_not_short_name :
  ~ (forall model_name k variants p s',
       alias_used model_name k ->
       download_model (hub := Scenario.hub)
         (mkDownloader Scenario.models_dir) model_name variants
         Scenario.start = (Ok p, s') ->
       p = Scenario.models_dir // (k ++ "-HF")).
Proof.
  intro H.
  assert (Halias : alias_used "qwen" "qwen3").
  { right. split; [reflexivity | split; [reflexivity |]].
    exists ["flan-t5-small"; "flan-t5-base"; "flan-t5-large"; "distilbart"],
           ["llama3"; "phi3"].
    split; [reflexivity | split; [reflexivity |]].
    intros k' Hk'. cbn in Hk'.
    repeat (destruct Hk' as [<- | Hk']; [reflexivity |]). contradiction. }
  assert (E : download_model (hub := Scenario.hub)
                (mkDownloader Scenario.models_dir) "qwen" None Scenario.start
              = (Ok (subdir Scenario.models_dir
                       "onnx-community-Qwen3-1.7B-ONNX-HF"),
                 snd (download_model (hub := Scenario.hub)
                        (mkDownloader Scenario.models_dir) "qwen" None
                        Scenario.start))).
  { vm_compute. reflexivity. }
  specialize (H "qwen" "qwen3" None _ _ Halias E).
  vm_compute in H. discriminate H.
Qed.

(** C5 at [--model qwen3 --variants int8,bogus]. *)
Lemma invalid_variant_exit_witness :
  has_invalid_token "int8,bogus"
  /\ main (hub := Scenario.hub) Scenario.models_dir
       (mkArgs false (Some "qwen3") (Some "int8,bogus") None) Scenario.start
     = (2%N, Scenario.start).
Proof.
  assert (Hbad : has_invalid_token "int8,bogus").
  { exists "bogus". split; [right; left; reflexivity | reflexivity]. }
  split; [exact Hbad |].
  apply (invalid_variant_exit (hub := Scenario.hub) Scenario.models_dir
           (mkArgs false (Some "qwen3") (Some "int8,bogus") None)
           Scenario.start "int8,bogus").
  - reflexivity.
  - discriminate.
  - exact Hbad.
Defined.

(** C5 as stated fails: the exit status of an invalid [--variants] is not
    1. *)
Lemma invalid_variant_exit_is_not_1 :
  ~ (forall args vs,
       arg_variants args = Some vs ->
       has_invalid_token vs ->
       fst (main (hub := Scenario.hub) Scenario.models_dir args
              Scenario.start) = 1%N).
Proof.
  intro H.
  specialize (H (mkArgs false (Some "qwen3") (Some "int8,bogus") None)
                "int8,bogus" eq_refl).
  assert (Hbad : has_invalid_token "int8,bogus").
  { exists "bogus". split; [right; left; reflexivity | reflexivity]. }
  specialize (H Hbad). vm_compute in H. discriminate H.
Qed.

(** A batch of three in the small world: [config.json] is there already,
    the fetch of [onnx/broken_model.onnx] times out, [tokenizer.json] is
    fetched. *)
Example download_files_scenario :
  let dir := Scenario.models_dir // "x-HF" in
  let run := download_files (hub := Scenario.hub) "r/x"
               ["config.json"; "onnx/broken_model.onnx"; "tokenizer.json"]
               dir Scenario.start in
  fst run = Ok [dir // "config.json"; dir // "tokenizer.json"]
  /\ snd (snd run)
     = [ EvExists (dir // "config.json") (Ok true);
         EvExists (dir // "onnx/broken_model.onnx") (Ok false);
         EvMkdir (dir // "onnx") (Ok tt);
         EvFetch "r/x" "onnx/broken_model.onnx" dir
           (Raise (OtherException "timeout"));
         EvExists (dir // "tokenizer.json") (Ok false);
         EvMkdir dir (Ok tt);
         EvFetch "r/x" "tokenizer.json" dir (Ok tt) ].
Proof. cbv zeta. split; vm_compute; reflexivity. Qed.

(** The exit statuses of the command line in the small world. *)
Example main_exit_statuses :
  let run args := fst (main (hub := Scenario.hub) Scenario.models_dir args
                         Scenario.start) in
  run (mkArgs true None (Some "bogus") None) = 0%N
  /\ run (mkArgs false None None None) = 2%N
  /\ run (mkArgs false (Some "qwen3") (Some "bogus") None) = 2%N
  /\ run (mkArgs false (Some "qwen3") (Some "int8") None) = 0%N
  /\ run (mkArgs false (Some "gpt2") None None) = 1%N
  /\ run (mkArgs false (Some "missing/repo") None None) = 1%N.
Proof. cbv zeta. repeat split; vm_compute; reflexivity. Qed.

(** * Further properties *)

(** ** Order-preserving deduplication *)

Lemma filter_mem_absorb (x : string) (acc l : list string) :
  mem x acc = true ->
  filter (fun y => negb (mem y acc)) (filter (fun y => negb (y =? x)) l)
  = filter (fun y => negb (mem y acc)) l.
Proof.
  intro Hx. induction l as [|y l IH]; [reflexivity |].
  cbn [filter]. destruct (y =? x) eqn:E; cbn [negb filter].
  - apply String.eqb_eq in E. subst y. rewrite Hx. cbn [negb]. exact IH.
  - now rewrite IH.
Qed.

Lemma filter_mem_snoc (x : string) (acc l : list string) :
  filter (fun y => negb (mem y (acc ++ [x]))) l
  = filter (fun y => negb (mem y acc)) (filter (fun y => negb (y =? x)) l).
Proof.
  induction l as [|y l IH]; [reflexivity |].
  cbn [filter]. unfold mem at 1. rewrite existsb_app. cbn [existsb].
  rewrite orb_false_r. fold (mem y acc).
  destruct (y =? x) eqn:E; cbn [negb filter].
  - rewrite orb_true_r. cbn [negb]. exact IH.
  - rewrite orb_false_r. now rewrite IH.
Qed.

Lemma filter_not_singleton (x : string) (l : list string) :
  filter (fun y => negb (mem y [x])) l = filter (fun y => negb (y =? x)) l.
Proof.
  apply filter_ext. intro y. unfold mem. cbn [existsb].
  now rewrite orb_false_r.
Qed.

Lemma fromkeys_fold_acc (l acc : list string) :
  fold_left (fun keys x => if mem x keys then keys else keys ++ [x]) l acc
  = acc ++ filter (fun y => negb (mem y acc)) (dict_fromkeys l).
Proof.
  unfold dict_fromkeys. revert acc.
  induction l as [|x l IH]; intro acc; cbn [fold_left].
  - cbn [filter]. now rewrite app_nil_r.
  - change (if mem x [] then [] else [] ++ [x]) with [x].
    rewrite (IH [x]). cbn [app filter].
    destruct (mem x acc) eqn:E; cbn [negb].
    + rewrite (IH acc). f_equal.
      now rewrite filter_not_singleton, filter_mem_absorb.
    + rewrite (IH (acc ++ [x])), <- app_assoc. cbn [app]. do 2 f_equal.
      now rewrite filter_not_singleton, filter_mem_snoc.
Qed.

Lemma dict_fromkeys_cons (x : string) (l : list string) :
  dict_fromkeys (x :: l)
  = x :: filter (fun y => negb (y =? x)) (dict_fromkeys l).
Proof.
  unfold dict_fromkeys at 1. cbn [fold_left].
  change (if mem x [] then [] else [] ++ [x]) with [x].
  rewrite fromkeys_fold_acc. cbn [app]. f_equal.
  apply filter_not_singleton.
Qed.

Lemma dict_fromkeys_NoDup (l : list string) : NoDup (dict_fromkeys l).
Proof.
  induction l as [|x l IH]; [constructor |].
  rewrite dict_fromkeys_cons. constructor.
  - rewrite filter_In. intros [_ H]. now rewrite String.eqb_refl in H.
  - now apply NoDup_filter.
Qed.

Lemma filter_neq_absent (x : string) (l : list string) :
  ~ In x l -> filter (fun y => negb (y =? x)) l = l.
Proof.
  intro H. induction l as [|y l IH]; [reflexivity |].
  cbn [filter]. destruct (y =? x) eqn:E.
  - apply String.eqb_eq in E. subst. exfalso. apply H. now left.
  - cbn [negb]. f_equal. apply IH. intro Hx. apply H. now right.
Qed.

Lemma dict_fromkeys_id (l : list string) : NoDup l -> dict_fromkeys l = l.
Proof.
  induction 1 as [|x l Hx Hl IH]; [reflexivity |].
  rewrite dict_fromkeys_cons, IH. f_equal. now apply filter_neq_absent.
Qed.

Lemma filter_comm {A : Type} (f g : A -> bool) (l : list A) :
  filter f (filter g l) = filter g (filter f l).
Proof.
  induction l as [|x l IH]; [reflexivity |].
  cbn [filter]. destruct (f x) eqn:Ef; destruct (g x) eqn:Eg;
    cbn [filter]; rewrite ?Ef, ?Eg, IH; reflexivity.
Qed.

Lemma dict_fromkeys_filter (f : string -> bool) (l : list string) :
  dict_fromkeys (filter f l) = filter f (dict_fromkeys l).
Proof.
  induction l as [|x l IH]; [reflexivity |].
  rewrite dict_fromkeys_cons. cbn [filter]. destruct (f x) eqn:E.
  - rewrite dict_fromkeys_cons, IH. f_equal. apply filter_comm.
  - rewrite IH, filter_comm. symmetry. apply filter_neq_absent.
    rewrite filter_In. intros [_ H]. congruence.
Qed.

Lemma scan_onnx_filter (files vs : list string) :
  scan_onnx files (map normalize_variant vs) = filter (selected vs) files.
Proof.
  induction files as [|f files IH]; [reflexivity |].
  cbn [scan_onnx filter]. rewrite candidate_guard. unfold selected at 1.
  destruct (is_onnx_candidate f); cbn [negb andb]; [| exact IH].
  destruct (variant_loop (lower f) (map normalize_variant vs));
    now rewrite IH.
Qed.

Lemma scan_config_filter (files : list string) :
  scan_config files = filter essential files.
Proof.
  induction files as [|f files IH]; [reflexivity |].
  cbn [scan_config filter]. unfold essential at 1.
  destruct (mem (name (of_string f)) ESSENTIAL_FILES).
  - now rewrite IH.
  - now rewrite andb_false_r.
Qed.

Lemma filter_idem {A : Type} (f : A -> bool) (l : list A) :
  filter f (filter f l) = filter f l.
Proof.
  induction l as [|x l IH]; [reflexivity |].
  cbn [filter]. destruct (f x) eqn:E; cbn [filter]; rewrite ?E, IH;
    reflexivity.
Qed.

Lemma onnx_as_filter (files vs : list string) :
  onnx (filter_files_by_variants files (Some vs))
  = filter (selected vs) (dict_fromkeys files).
Proof.
  unfold filter_files_by_variants. cbn [onnx].
  now rewrite scan_onnx_filter, dict_fromkeys_filter.
Qed.

Lemma config_as_filter (files : list string) (v : option (list string)) :
  config (filter_files_by_variants files v)
  = filter essential (dict_fromkeys files).
Proof.
  unfold filter_files_by_variants. cbn [config].
  now rewrite scan_config_filter, dict_fromkeys_filter.
Qed.

(** ** The variant filter, beyond the claims *)

(** X1. Both lists of the result are free of duplicates and keep the order
    of the input: each is the input with the later repeats of a path
    dropped, restricted to the paths its loop selects. On an input without
    repeats they are the plain selections. *)
Theorem filter_outputs_first_occurrences
    (files vs : list string) (v : option (list string)) :
  onnx (filter_files_by_variants files (Some vs))
  = filter (selected vs) (dict_fromkeys files)
  /\ config (filter_files_by_variants files v)
     = filter essential (dict_fromkeys files)
  /\ NoDup (onnx (filter_files_by_variants files (Some vs)))
  /\ NoDup (config (filter_files_by_variants files v))
  /\ (NoDup files ->
      onnx (filter_files_by_variants files (Some vs))
      = filter (selected vs) files
      /\ config (filter_files_by_variants files v) = filter essential files).
Proof.
  rewrite onnx_as_filter, config_as_filter.
  split; [reflexivity | split; [reflexivity |]].
  split; [apply NoDup_filter, dict_fromkeys_NoDup |].
  split; [apply NoDup_filter, dict_fromkeys_NoDup |].
  intro Hnd. now rewrite (dict_fromkeys_id files Hnd).
Qed.

(** X2. Filtering is idempotent on its own output: the ONNX files selected
    from the ONNX output of a run with the same tags, and the config files
    selected from the config output of a run, are that output again. *)
Theorem filter_idempotent_on_output
    (files vs : list string) (v v' : option (list string)) :
  onnx (filter_files_by_variants
          (onnx (filter_files_by_variants files (Some vs))) (Some vs))
  = onnx (filter_files_by_variants files (Some vs))
  /\ config (filter_files_by_variants
               (config (filter_files_by_variants files v)) v')
     = config (filter_files_by_variants files v).
Proof.
  split.
  - rewrite (onnx_as_filter (onnx _)), onnx_as_filter.
    rewrite dict_fromkeys_id
      by apply NoDup_filter, dict_fromkeys_NoDup.
    apply filter_idem.
  - rewrite (config_as_filter (config _)), config_as_filter.
    rewrite dict_fromkeys_id
      by apply NoDup_filter, dict_fromkeys_NoDup.
    apply filter_idem.
Qed.

Lemma variant_loop_existsb (file_lower : string) (tags : list string) :
  variant_loop file_lower tags = existsb (tag_match file_lower) tags.
Proof.
  induction tags as [|t tags IH]; [reflexivity |].
  cbn [variant_loop existsb]. unfold tag_match at 1.
  destruct (t =? "full").
  - destruct (full_branch file_lower); [reflexivity | exact IH].
  - destruct (other_branch t file_lower); [reflexivity | exact IH].
Qed.

Lemma existsb_same_elements {A : Type} (f : A -> bool) (l l' : list A) :
  (forall x, In x l <-> In x l') -> existsb f l = existsb f l'.
Proof.
  intro H. destruct (existsb f l) eqn:E.
  - apply existsb_exists in E as (x & Hx & Hf). symmetry.
    apply existsb_exists. exists x. split; [now apply H | exact Hf].
  - destruct (existsb f l') eqn:E'; [| reflexivity].
    apply existsb_exists in E' as (x & Hx & Hf).
    assert (existsb f l = true) by
      (apply existsb_exists; exists x; split; [now apply H | exact Hf]).
    congruence.
Qed.

(** X3. The request is read as a set of normalised tags: two requests with
    the same normalised tags, in any order and with any repetition, give
    the same result. *)
Theorem request_is_a_set_of_tags (files vs vs' : list string) :
  (forall t, In t (map normalize_variant vs)
             <-> In t (map normalize_variant vs')) ->
  filter_files_by_variants files (Some vs)
  = filter_files_by_variants files (Some vs').
Proof.
  intro H. unfold filter_files_by_variants. f_equal. f_equal.
  apply scan_onnx_ext. intro fl. rewrite !variant_loop_existsb.
  now apply existsb_same_elements.
Qed.

(** X3 at the requests [q4, INT8, q4] and [int8, Q4 ]. *)
Lemma request_is_a_set_of_tags_witness :
  (forall t, In t (map normalize_variant ["q4"; "INT8"; "q4"])
             <-> In t (map normalize_variant ["int8"; "Q4 "]))
  /\ filter_files_by_variants Scenario.listing (Some ["q4"; "INT8"; "q4"])
     = filter_files_by_variants Scenario.listing (Some ["int8"; "Q4 "]).
Proof.
  assert (H : forall t, In t (map normalize_variant ["q4"; "INT8"; "q4"])
                        <-> In t (map normalize_variant ["int8"; "Q4 "])).
  { intro t. change (map normalize_variant ["q4"; "INT8"; "q4"])
      with ["q4"; "int8"; "q4"].
    change (map normalize_variant ["int8"; "Q4 "]) with ["int8"; "q4"].
    cbn [In]. tauto. }
  split; [exact H |].
  exact (request_is_a_set_of_tags Scenario.listing
           ["q4"; "INT8"; "q4"] ["int8"; "Q4 "] H).
Defined.

(** X4. The ONNX files of a joint request are those of its parts: a path is
    selected by the tags [vs ++ vs'] exactly when it is selected by [vs] or
    by [vs'], so adding tags never removes a file. *)
Theorem joint_request_is_union (files vs vs' : list string) (f : string) :
  In f (onnx (filter_files_by_variants files (Some (vs ++ vs'))))
  <-> In f (onnx (filter_files_by_variants files (Some vs)))
      \/ In f (onnx (filter_files_by_variants files (Some vs'))).
Proof.
  rewrite !onnx_In, map_app, !variant_loop_existsb, existsb_app,
    orb_true_iff.
  tauto.
Qed.

(** ** Base names of candidate paths *)

Lemma split_nonempty (sep : ascii) (s : string) : split sep s <> [].
Proof.
  destruct s as [|c t]; cbn [split]; [discriminate |].
  destruct (Ascii.eqb c sep); [discriminate |].
  destruct (split sep t); discriminate.
Qed.

Lemma split_single_inv (s h : string) :
  split "/" s = [h] -> h = s /\ str_in "/" s = false.
Proof.
  revert h. induction s as [|c t IH]; intros h; cbn [split].
  - intro E. inversion E. now split.
  - destruct (Ascii.eqb c "/") eqn:Ec.
    + intro E. inversion E as [[Eh Et]]. now apply split_nonempty in Et.
    + destruct (split "/" t) as [|h' r] eqn:Es.
      * now apply split_nonempty in Es.
      * intro E. inversion E as [[Eh Er]]. subst r.
        destruct (IH h' eq_refl) as [-> Ht].
        split; [reflexivity |]. now rewrite str_in_slash_cons, Ec, Ht.
Qed.

Lemma endswith_last_segment (s sfx : string) :
  sfx <> EmptyString -> str_in "/" sfx = false ->
  endswith s sfx = true ->
  endswith (last (split "/" s) EmptyString) sfx = true.
Proof.
  intros Hne Hns. induction s as [|c t IH]; cbn [endswith].
  - rewrite orb_false_r. intro E. apply String.eqb_eq in E. congruence.
  - intro H. apply orb_true_iff in H. cbn [split].
    destruct (Ascii.eqb c "/") eqn:Ec.
    + destruct H as [H | H].
      * apply String.eqb_eq in H. subst sfx.
        rewrite str_in_slash_cons, Ec in Hns. discriminate.
      * specialize (IH H). destruct (split "/" t) as [|h r] eqn:Es.
        -- now apply split_nonempty in Es.
        -- exact IH.
    + destruct (split "/" t) as [|h r] eqn:Es.
      * now apply split_nonempty in Es.
      * destruct r as [|h2 r].
        -- apply split_single_inv in Es as [-> _]. cbn [last endswith].
           now apply orb_true_iff.
        -- destruct H as [H | H].
           ++ apply String.eqb_eq in H. subst sfx.
              rewrite str_in_slash_cons in Hns.
              apply orb_false_iff in Hns as [_ Hns].
              rewrite (split_no_slash t Hns) in Es. discriminate.
           ++ exact (IH H).
Qed.

Lemma last_filter_component (l : list string) (d : string) :
  l <> [] -> is_component (last l d) = true ->
  last (filter is_component l) d = last l d
  /\ filter is_component l <> [].
Proof.
  induction l as [|a l IH]; [congruence |]. intros _ Hc.
  destruct l as [|b l].
  - cbn [last] in Hc. cbn [filter]. rewrite Hc. now split.
  - change (last (a :: b :: l) d) with (last (b :: l) d) in *.
    destruct (IH ltac:(discriminate) Hc) as [El Hne].
    cbn [filter] in *. destruct (is_component a).
    + split; [| discriminate].
      destruct (if is_component b then b :: filter is_component l
                else filter is_component l) eqn:E; [congruence |].
      exact El.
    + now split.
Qed.

Lemma candidate_is_component (l : string) :
  is_onnx_candidate l = true -> is_component l = true.
Proof.
  intro H. unfold is_component.
  destruct (l =? EmptyString) eqn:E1.
  { apply String.eqb_eq in E1. subst. discriminate H. }
  destruct (l =? ".") eqn:E2.
  { apply String.eqb_eq in E2. subst. discriminate H. }
  reflexivity.
Qed.

Lemma candidate_name (file_path : string) :
  is_onnx_candidate file_path = true ->
  is_onnx_candidate (name (of_string file_path)) = true.
Proof.
  unfold is_onnx_candidate at 1. intro H. apply orb_true_iff in H.
  assert (Hlast : is_onnx_candidate
                    (last (split "/" file_path) EmptyString) = true).
  { unfold is_onnx_candidate. apply orb_true_iff.
    destruct H as [H | H]; [left | right];
      (apply endswith_last_segment; [discriminate | reflexivity | exact H]). }
  unfold name, of_string. cbn [parts].
  destruct (last_filter_component (split "/" file_path) EmptyString
              (split_nonempty _ _) (candidate_is_component _ Hlast))
    as [E _].
  now rewrite E.
Qed.

Lemma essential_not_candidate (file_path : string) :
  essential file_path = true -> is_onnx_candidate file_path = false.
Proof.
  unfold essential. intro He.
  destruct (is_onnx_candidate file_path) eqn:Ec; [| reflexivity].
  apply candidate_name in Ec. apply mem_In in He.
  remember (name (of_string file_path)) as n eqn:En. clear En.
  unfold ESSENTIAL_FILES in He. cbn [In] in He.
  repeat (destruct He as [He | He];
          [subst n; discriminate Ec |]).
  contradiction.
Qed.

(** X5. No path is both an ONNX file and a config file of a result: a path
    ending in [.onnx] or [.onnx_data] has a base name with the same ending,
    and no essential name has it. So [download_model] never asks for the
    same listed path in both of its batches. *)
Theorem onnx_and_config_disjoint
    (files : list string) (v v' : option (list string)) (f : string) :
  ~ (In f (onnx (filter_files_by_variants files v))
     /\ In f (config (filter_files_by_variants files v'))).
Proof.
  intros [Ho Hc]. apply config_In in Hc as [_ Hc].
  apply essential_not_candidate in Hc.
  assert (Hcand : is_onnx_candidate f = true).
  { destruct v as [vs|].
    - now apply onnx_In in Ho.
    - change (filter_files_by_variants files None)
        with (filter_files_by_variants files
                (Some ["full"; "fp16"; "int8"; "q4"])) in Ho.
      now apply onnx_In in Ho. }
  congruence.
Qed.

(** ** parse_variants, beyond the claims *)

Lemma check_variants_ok (l : list string) :
  check_variants l = Ok tt <-> forall v, In v l -> mem v valid_variants = true.
Proof.
  induction l as [|x l IH]; cbn [check_variants].
  - split; [intros _ v [] | reflexivity].
  - destruct (mem x valid_variants) eqn:E; cbn [negb].
    + rewrite IH. split.
      * intros H v [<- | Hv]; [exact E | now apply H].
      * intros H v Hv. apply H. now right.
    + split; [discriminate |].
      intro H. rewrite (H x (or_introl eq_refl)) in E. discriminate.
Qed.

Lemma check_variants_first_invalid (l : list string) (e : exn) :
  check_variants l = Raise e ->
  exists before v after,
    l = before ++ v :: after
    /\ (forall w, In w before -> mem w valid_variants = true)
    /\ mem v valid_variants = false
    /\ e = invalid_variant v.
Proof.
  induction l as [|x l IH]; cbn [check_variants]; [discriminate |].
  destruct (mem x valid_variants) eqn:E; cbn [negb].
  - intro H. destruct (IH H) as (b & v & a & -> & Hb & Hv & ->).
    exists (x :: b), v, a. split; [reflexivity |].
    split; [| now split].
    intros w [<- | Hw]; [exact E | now apply Hb].
  - intro H. inversion H. exists [], x, l.
    split; [reflexivity |]. split; [intros w [] | now split].
Qed.

Lemma valid_variant_normal (v : string) :
  mem v valid_variants = true -> normalize_variant v = v.
Proof.
  intro H. apply mem_In in H. unfold valid_variants in H. cbn [In] in H.
  repeat (destruct H as [<- | H]; [reflexivity |]). contradiction.
Qed.

(** X6. [parse_variants] has three outcomes. It returns [None] exactly for
    an absent or empty string. Otherwise, with the tokens of the string
    split at commas, stripped and lowercased: it returns them, a non-empty
    list, when every one is a valid tag; and it raises the invalid-variant
    error for the first token that is not. *)
Theorem parse_variants_outcomes (variants_str : option string) :
  match parse_variants variants_str with
  | Ok None => variants_str = None \/ variants_str = Some EmptyString
  | Ok (Some vs) =>
      exists s,
        variants_str = Some s /\ s <> EmptyString
        /\ vs = map (fun v => lower (strip v)) (split "," s)
        /\ vs <> []
        /\ forall v, In v vs -> mem v valid_variants = true
  | Raise e =>
      exists s before v after,
        variants_str = Some s /\ s <> EmptyString
        /\ map (fun v => lower (strip v)) (split "," s)
           = before ++ v :: after
        /\ (forall w, In w before -> mem w valid_variants = true)
        /\ mem v valid_variants = false
        /\ e = invalid_variant v
  end.
Proof.
  unfold parse_variants. destruct variants_str as [s|]; [| now left].
  destruct (s =? EmptyString) eqn:Es.
  { apply String.eqb_eq in Es. subst. now right. }
  apply String.eqb_neq in Es.
  destruct (check_variants (map (fun v => lower (strip v)) (split "," s)))
    as [[]|e] eqn:Ec.
  - exists s. split; [reflexivity |]. split; [exact Es |].
    split; [reflexivity |]. split.
    + intro H. apply map_eq_nil in H. now apply split_nonempty in H.
    + now apply check_variants_ok.
  - apply check_variants_first_invalid in Ec
      as (b & v & a & El & Hb & Hv & ->).
    exists s, b, v, a. repeat split; assumption.
Qed.

(** X7. What [parse_variants] accepts, the filter uses as it is: the tags
    are already in normal form, all four-tag names, so a listed path is an
    ONNX file of the result exactly when it is a candidate and one of the
    parsed tags matches its lowercased name. *)
Theorem parsed_request_is_matched_as_parsed
    (variants_str : option string) (vs : list string) :
  parse_variants variants_str = Ok (Some vs) ->
  map normalize_variant vs = vs
  /\ (forall v, In v vs -> known_variant v = true)
  /\ forall files f,
       In f (onnx (filter_files_by_variants files (Some vs)))
       <-> In f files /\ is_onnx_candidate f = true
           /\ exists t, In t vs /\ tag_match (lower f) t = true.
Proof.
  intro H.
  unfold parse_variants in H. destruct variants_str as [s|]; [| discriminate].
  destruct (s =? EmptyString); [discriminate |].
  destruct (check_variants (map (fun v => lower (strip v)) (split "," s)))
    as [[]|e] eqn:Ec; [| discriminate].
  injection H as Hvs. subst vs.
  remember (map (fun v => lower (strip v)) (split "," s)) as vs eqn:Evs.
  clear Evs.
  assert (Hvalid : forall v, In v vs -> mem v valid_variants = true)
    by now apply check_variants_ok.
  assert (Hnorm : map normalize_variant vs = vs).
  { clear - Hvalid. induction vs as [|v vs IH]; [reflexivity |].
    cbn [map]. rewrite (valid_variant_normal v (Hvalid v (or_introl eq_refl))).
    f_equal. apply IH. intros w Hw. apply Hvalid. now right. }
  split; [exact Hnorm |]. split.
  - intros v Hv. unfold known_variant.
    now rewrite (valid_variant_normal v (Hvalid v Hv)), (Hvalid v Hv).
  - intros files f. rewrite onnx_In, Hnorm, variant_loop_existsb,
      existsb_exists. tauto.
Qed.

(** X7 at [--variants " INT8 , q4"]. *)
Lemma parsed_request_is_matched_as_parsed_witness :
  parse_variants (Some " INT8 , q4") = Ok (Some ["int8"; "q4"])
  /\ map normalize_variant ["int8"; "q4"] = ["int8"; "q4"].
Proof.
  split; [reflexivity |].
  exact (proj1 (parsed_request_is_matched_as_parsed
                  (Some " INT8 , q4") ["int8"; "q4"] eq_refl)).
Defined.

Lemma parse_variants_some (variants_str : option string) (vs : list string) :
  parse_variants variants_str = Ok (Some vs) ->
  vs <> [] /\ forall v, In v vs -> mem v valid_variants = true.
Proof.
  unfold parse_variants. destruct variants_str as [s|]; [| discriminate].
  destruct (s =? EmptyString); [discriminate |].
  destruct (check_variants (map (fun v => lower (strip v)) (split "," s)))
    as [[]|e] eqn:Ec; [| discriminate].
  intro H. injection H as <-. split.
  - intro E. apply map_eq_nil in E. now apply split_nonempty in E.
  - now apply check_variants_ok.
Qed.

(** ** _print_usage_example *)

(** X8. For a request that [parse_variants] accepted, the variant named in
    the usage example is one of the requested ones, the first present in
    the order int8, q4, fp16, full. *)
Theorem usage_example_names_a_requested_variant
    (variants_str : option string) (vs : list string) :
  parse_variants variants_str = Ok (Some vs) ->
  In (lower (usage_example_variant (Some vs))) vs
  /\ (usage_example_variant (Some vs) = "INT8" <-> In "int8" vs)
  /\ (usage_example_variant (Some vs) = "Q4"
      <-> ~ In "int8" vs /\ In "q4" vs)
  /\ (usage_example_variant (Some vs) = "FP16"
      <-> ~ In "int8" vs /\ ~ In "q4" vs /\ In "fp16" vs)
  /\ (usage_example_variant (Some vs) = "FULL"
      <-> ~ In "int8" vs /\ ~ In "q4" vs /\ ~ In "fp16" vs).
Proof.
  intro H. apply parse_variants_some in H as [Hne Hvalid].
  destruct vs as [|v0 vs']; [congruence |]. clear Hne.
  remember (v0 :: vs') as vs eqn:Evs.
  assert (Hu : usage_example_variant (Some vs)
               = if mem "int8" vs then "INT8"
                 else if mem "q4" vs then "Q4"
                 else if mem "fp16" vs then "FP16" else "FULL").
  { now subst vs. }
  rewrite Hu. clear Hu.
  assert (H8 : mem "int8" vs = true <-> In "int8" vs) by apply mem_In.
  assert (H4 : mem "q4" vs = true <-> In "q4" vs) by apply mem_In.
  assert (H16 : mem "fp16" vs = true <-> In "fp16" vs) by apply mem_In.
  destruct (mem "int8" vs) eqn:E8.
  { assert (In "int8" vs) by now apply H8.
    repeat split; try discriminate; try tauto. }
  destruct (mem "q4" vs) eqn:E4.
  { assert (In "q4" vs) by now apply H4.
    assert (~ In "int8" vs) by (intro; now apply H8 in H0).
    repeat split; try discriminate; try tauto. }
  destruct (mem "fp16" vs) eqn:E16.
  { assert (In "fp16" vs) by now apply H16.
    assert (~ In "int8" vs) by (intro X; now apply H8 in X).
    assert (~ In "q4" vs) by (intro X; now apply H4 in X).
    repeat split; try discriminate; try tauto. }
  assert (N8 : ~ In "int8" vs) by (intro X; now apply H8 in X).
  assert (N4 : ~ In "q4" vs) by (intro X; now apply H4 in X).
  assert (N16 : ~ In "fp16" vs) by (intro X; now apply H16 in X).
  split; [| repeat split; try discriminate; try tauto].
  assert (Hv0 : In v0 vs) by (subst vs; now left).
  pose proof (Hvalid v0 Hv0) as Hm. apply mem_In in Hm.
  unfold valid_variants in Hm. cbn [In] in Hm.
  destruct Hm as [<- | [<- | [<- | [<- | []]]]];
    [exact Hv0 | contradiction..].
Qed.

(** X8 at [--variants fp16,q4]. *)
Lemma usage_example_names_a_requested_variant_witness :
  parse_variants (Some "fp16,q4") = Ok (Some ["fp16"; "q4"])
  /\ In (lower (usage_example_variant (Some ["fp16"; "q4"])))
        ["fp16"; "q4"].
Proof.
  split; [reflexivity |].
  exact (proj1 (usage_example_names_a_requested_variant
                  (Some "fp16,q4") ["fp16"; "q4"] eq_refl)).
Defined.

(** ** The resolver, beyond the claim *)

Lemma dict_lookup_values {V : Type} (d : list (string * V)) (k : string)
    (v : V) :
  dict_lookup d k = Some v -> In v (dict_values d).
Proof.
  induction d as [|[k' v'] d IH]; cbn [dict_lookup dict_values map snd];
    [discriminate |].
  destruct (k =? k').
  - intro H. injection H as <-. now left.
  - intro H. right. now apply IH.
Qed.

Lemma registry_repo_resolves_to_itself (e : RegistryEntry) :
  In e (dict_values MODEL_REGISTRY) ->
  resolve_repo_id (repo e) = Ok (repo e)
  /\ str_in "/" (repo e) = true
  /\ dict_has MODEL_REGISTRY (repo e) = false.
Proof.
  intro H. unfold MODEL_REGISTRY in H. cbn [dict_values map snd In] in H.
  repeat (destruct H as [<- | H];
          [split; [| split]; vm_compute; reflexivity |]).
  contradiction.
Qed.

(** X9. Resolution is idempotent: whatever [resolve_repo_id] returns has a
    slash, is no registry short name, and resolves to itself, so a printed
    repository id can be given back as the model name. *)
Theorem resolve_idempotent (model_name repo_id : string) :
  resolve_repo_id model_name = Ok repo_id ->
  resolve_repo_id repo_id = Ok repo_id
  /\ str_in "/" repo_id = true
  /\ dict_has MODEL_REGISTRY repo_id = false.
Proof.
  unfold resolve_repo_id at 1. unfold registry_repo.
  destruct (dict_has MODEL_REGISTRY model_name) eqn:Eh.
  - destruct (dict_lookup MODEL_REGISTRY model_name) as [e|] eqn:El;
      [| discriminate].
    intro H. injection H as <-.
    apply registry_repo_resolves_to_itself.
    now apply dict_lookup_values in El.
  - destruct (str_in "/" model_name) eqn:Es.
    + intro H. injection H as <-.
      split; [| now split].
      unfold resolve_repo_id. now rewrite Eh, Es.
    + destruct (filter _ (dict_keys MODEL_REGISTRY)) as [|k l];
        [discriminate |].
      destruct (dict_lookup MODEL_REGISTRY k) as [e|] eqn:El;
        [| discriminate].
      intro H. injection H as <-.
      apply registry_repo_resolves_to_itself.
      now apply dict_lookup_values in El.
Qed.

(** X9 at the name [llama]. *)
Lemma resolve_idempotent_witness :
  resolve_repo_id "llama" = Ok "onnx-community/Llama-3.2-1B-Instruct-ONNX"
  /\ resolve_repo_id "onnx-community/Llama-3.2-1B-Instruct-ONNX"
     = Ok "onnx-community/Llama-3.2-1B-Instruct-ONNX".
Proof.
  split; [reflexivity |].
  exact (proj1 (resolve_idempotent "llama"
                  "onnx-community/Llama-3.2-1B-Instruct-ONNX" eq_refl)).
Defined.

(** ** download_model and main, beyond the claims *)

Section DownloaderMore.
Context {World : Type} {hub : Hub World}.

Lemma get_repo_files_ok (repo_id : string) (s : State)
    (files : list string) (w1 : World) :
  list_repo_files repo_id (fst s) = (Ok files, w1) ->
  get_repo_files repo_id s
  = (Ok files, (w1, snd s ++ [EvListFiles repo_id (Ok files)])).
Proof.
  intro E. unfold get_repo_files, try_except, call. now rewrite E.
Qed.

Lemma get_repo_files_raises (repo_id : string) (s : State)
    (e : exn) (w1 : World) :
  list_repo_files repo_id (fst s) = (Raise e, w1) ->
  exists e',
    get_repo_files repo_id s
    = (Raise e', (w1, snd s ++ [EvListFiles repo_id (Raise e)]))
    /\ e' = match e with
            | RepositoryNotFoundError =>
                ValueError ("Repository not found: " ++ repo_id)
            | HfHubHTTPError msg =>
                ValueError ("Error accessing repository " ++ repo_id
                            ++ ": " ++ msg)
            | _ => e
            end.
Proof.
  intro E. unfold get_repo_files, try_except, call, raise. rewrite E.
  destruct e; eexists; split; reflexivity.
Qed.

Lemma prints_succeed_never_raise (e : exn) :
  prints_succeed hub -> ~ print_raised e.
Proof.
  intros Hp (m & w & w0 & E). destruct (Hp m w) as [w' E'].
  rewrite E' in E. discriminate.
Qed.

Lemma download_model_run (self : ModelDownloader) (model_name : string)
    (variants : option (list string)) (s : State)
    (repo_id : string) (all_files : list string) (w1 : World) :
  resolve_repo_id model_name = Ok repo_id ->
  list_repo_files repo_id (fst s) = (Ok all_files, w1) ->
  let local_dir :=
    subdir (output_dir self) (dir_name_of model_name repo_id) in
  let filtered := filter_files_by_variants all_files variants in
  exists r evs1 evs2 w',
    download_model self model_name variants s
    = (r, (w', snd s ++ EvListFiles repo_id (Ok all_files) :: evs1 ++ evs2))
    /\ (r = Ok local_dir \/ exists e, r = Raise e /\ print_raised e)
    /\ ((onnx filtered = [] /\ r = Ok local_dir
         /\ evs1 = [] /\ evs2 = [] /\ w' = w1)
        \/ (onnx filtered <> [] /\ evs1 = [] /\ evs2 = []
            /\ exists e, r = Raise e)
        \/ (onnx filtered <> []
            /\ exists got1 got2 w2 w3 w4,
                 batch_exec repo_id local_dir w2 (onnx filtered) evs1 got1 w3
                 /\ batch_exec repo_id local_dir w3 (config filtered)
                      evs2 got2 w4)).
Proof.
  intros Hr Hl local_dir filtered.
  unfold download_model, print_usage_example, bind, lift, ret. rewrite Hr.
  rewrite (get_repo_files_ok repo_id s all_files w1 Hl).
  rewrite dir_name_single. fold local_dir. fold filtered.
  destruct (onnx filtered) as [|f l] eqn:Eo.
  { exists (Ok local_dir), [], [], w1. split; [reflexivity |].
    split; [now left | left; now repeat split]. }
  assert (Hne : f :: l <> []) by discriminate.
  match goal with
  | |- context [say_all ?ms ?st] =>
      destruct (say_all_outcome ms st) as (r0 & w2 & E0 & H0); rewrite E0
  end.
  cbn [snd].
  destruct H0 as [-> | (e & m & w & w0 & -> & _ & Hp)].
  2:{ exists (Raise e), [], [], w2. split; [reflexivity |].
      split; [right; exists e; split; [reflexivity | now exists m, w, w0] |].
      right; left. repeat split; try assumption. now exists e. }
  unfold download_files.
  destruct (download_loop_exec repo_id local_dir (f :: l) []
              (w2, snd s ++ [EvListFiles repo_id (Ok all_files)]))
    as (evs1 & got1 & w3 & E1 & B1).
  rewrite E1. cbn [fst snd] in *.
  destruct (download_loop_exec repo_id local_dir (config filtered) []
              (w3, (snd s ++ [EvListFiles repo_id (Ok all_files)]) ++ evs1))
    as (evs2 & got2 & w4 & E2 & B2).
  rewrite E2. cbn [fst snd app] in *.
  assert (Htrace : ((snd s ++ [EvListFiles repo_id (Ok all_files)]) ++ evs1)
                     ++ evs2
                   = snd s ++ EvListFiles repo_id (Ok all_files)
                              :: evs1 ++ evs2).
  { now rewrite <- !app_assoc. }
  rewrite Htrace.
  assert (Hshape' : forall r w',
    (f :: l = [] /\ r = Ok local_dir /\ evs1 = [] /\ evs2 = [] /\ w' = w1)
    \/ (f :: l <> [] /\ evs1 = [] /\ evs2 = [] /\ exists e, r = Raise e)
    \/ (f :: l <> []
        /\ exists got1 got2 w2 w3 w4,
             batch_exec repo_id local_dir w2 (f :: l) evs1 got1 w3
             /\ batch_exec repo_id local_dir w3 (config filtered)
                  evs2 got2 w4)).
  { intros r w'. right; right. split; [exact Hne |].
    now exists got1, got2, w2, w3, w4. }
  match goal with
  | |- context [say_all ?ms ?st] =>
      destruct (say_all_outcome ms st) as (r3 & w5 & E3 & H3); rewrite E3
  end.
  cbn [snd].
  destruct H3 as [-> | (e & m & w & w0 & -> & _ & Hp)].
  2:{ exists (Raise e), evs1, evs2, w5. split; [reflexivity |].
      split; [right; exists e; split; [reflexivity | now exists m, w, w0] |].
      apply Hshape'. }
  match goal with
  | |- context [say_all ?ms ?st] =>
      destruct (say_all_outcome ms st) as (r4 & w6 & E4 & H4); rewrite E4
  end.
  cbn [snd].
  destruct H4 as [-> | (e & m & w & w0 & -> & _ & Hp)].
  2:{ exists (Raise e), evs1, evs2, w6. split; [reflexivity |].
      split; [right; exists e; split; [reflexivity | now exists m, w, w0] |].
      apply Hshape'. }
  exists (Ok local_dir), evs1, evs2, w6. split; [reflexivity |].
  split; [now left | apply Hshape'].
Qed.

(** X10. [download_model] raises in three ways only. A name that does not
    resolve raises the unknown-model error with no request made at all. A
    listing that fails raises after that one request: [ValueError]
    "Repository not found" for a missing repository, [ValueError] "Error
    accessing repository" for a hub HTTP error, the exception itself
    otherwise. When the name resolves and the listing succeeds, it returns
    the download directory or raises what one of its [print] calls raised;
    when every [print] goes through it returns, whatever happens to the
    single files. *)
Theorem download_model_failure_modes (self : ModelDownloader)
    (model_name : string) (variants : option (list string)) (s : State) :
  match resolve_repo_id model_name with
  | Raise e => download_model self model_name variants s = (Raise e, s)
               /\ e = unknown_model model_name
  | Ok repo_id =>
      match list_repo_files repo_id (fst s) with
      | (Raise e, w1) =>
          download_model self model_name variants s
          = (Raise match e with
                   | RepositoryNotFoundError =>
                       ValueError ("Repository not found: " ++ repo_id)
                   | HfHubHTTPError msg =>
                       ValueError ("Error accessing repository " ++ repo_id
                                   ++ ": " ++ msg)
                   | _ => e
                   end,
             (w1, snd s ++ [EvListFiles repo_id (Raise e)]))
      | (Ok all_files, w1) =>
          exists r s',
            download_model self model_name variants s = (r, s')
            /\ (r = Ok (subdir (output_dir self)
                          (dir_name_of model_name repo_id))
                \/ exists e, r = Raise e /\ print_raised e)
            /\ (prints_succeed hub ->
                r = Ok (subdir (output_dir self)
                          (dir_name_of model_name repo_id)))
      end
  end.
Proof.
  destruct (resolve_repo_id model_name) as [repo_id|e] eqn:Hr.
  - destruct (list_repo_files repo_id (fst s)) as [[all_files|e] w1] eqn:Hl.
    + destruct (download_model_run self model_name variants s repo_id
                  all_files w1 Hr Hl)
        as (r & evs1 & evs2 & w' & E & Hres & _).
      exists r. eexists. split; [exact E |]. split; [exact Hres |].
      intro Hp. destruct Hres as [-> | (e & -> & He)]; [reflexivity |].
      now apply prints_succeed_never_raise in He.
    + unfold download_model, bind, lift. rewrite Hr.
      destruct (get_repo_files_raises repo_id s e w1 Hl) as (e' & E & ->).
      now rewrite E.
  - split.
    + unfold download_model, bind, lift. now rewrite Hr.
    + destruct (resolve_total model_name) as [[r Hr'] | Hr']; congruence.
Qed.

(** X11. When no listed file matches the requested variants,
    [download_model] stops after the listing: it returns the directory
    having asked nothing of the file system and fetched nothing, the config
    files included. *)
Theorem no_onnx_match_downloads_nothing (self : ModelDownloader)
    (model_name : string) (variants : option (list string)) (s : State)
    (repo_id : string) (all_files : list string) (w1 : World) :
  resolve_repo_id model_name = Ok repo_id ->
  list_repo_files repo_id (fst s) = (Ok all_files, w1) ->
  onnx (filter_files_by_variants all_files variants) = [] ->
  download_model self model_name variants s
  = (Ok (subdir (output_dir self) (dir_name_of model_name repo_id)),
     (w1, snd s ++ [EvListFiles repo_id (Ok all_files)])).
Proof.
  intros Hr Hl Ho.
  destruct (download_model_run self model_name variants s repo_id
              all_files w1 Hr Hl)
    as (r & evs1 & evs2 & w' & E & _
        & [(_ & -> & -> & -> & ->) | [(Hne & _) | (Hne & _)]]).
  - exact E.
  - congruence.
  - congruence.
Qed.

End DownloaderMore.

(** X11 in the small world: the request [fp16] matches no listed file. *)
Lemma no_onnx_match_downloads_nothing_witness :
  onnx (filter_files_by_variants Scenario.listing (Some ["fp16"])) = []
  /\ download_model (hub := Scenario.hub)
       (mkDownloader Scenario.models_dir) "qwen3" (Some ["fp16"])
       Scenario.start
     = (Ok (subdir Scenario.models_dir "qwen3-HF"),
        (fst Scenario.start,
         [EvListFiles "onnx-community/Qwen3-1.7B-ONNX"
            (Ok Scenario.listing)])).
Proof.
  split; [reflexivity |].
  exact (no_onnx_match_downloads_nothing (hub := Scenario.hub)
           (mkDownloader Scenario.models_dir) "qwen3" (Some ["fp16"])
           Scenario.start "onnx-community/Qwen3-1.7B-ONNX"
           Scenario.listing (fst Scenario.start)
           eq_refl eq_refl eq_refl).
Defined.

(** ** What a run asks for *)

Lemma file_run_events (repo_id : string) (local_dir : Path) (f : string)
    (evs : list event) (o : option Path) (ev : event) :
  file_run repo_id local_dir f evs o -> In ev evs ->
  (exists r, ev = EvExists (local_dir // f) r)
  \/ (exists r, ev = EvMkdir (parent (local_dir // f)) r)
  \/ (exists r, ev = EvFetch repo_id f local_dir r).
Proof.
  inversion 1; subst; cbn [In]; intro Hin;
    repeat (destruct Hin as [<- | Hin]; [eauto |]); contradiction.
Qed.

Lemma batch_run_events (repo_id : string) (local_dir : Path)
    (files : list string) (evs : list event) (got : list Path) (ev : event) :
  batch_run repo_id local_dir files evs got -> In ev evs ->
  exists f,
    In f files
    /\ ((exists r, ev = EvExists (local_dir // f) r)
        \/ (exists r, ev = EvMkdir (parent (local_dir // f)) r)
        \/ (exists r, ev = EvFetch repo_id f local_dir r)).
Proof.
  induction 1 as [|f rest evs o evs' got Hrun Hbatch IH]; intro Hin.
  - destruct Hin.
  - apply in_app_or in Hin as [Hin | Hin].
    + exists f. split; [now left |].
      exact (file_run_events _ _ _ _ _ _ Hrun Hin).
    + destruct (IH Hin) as (g & Hg & Hev). exists g. split; [now right |].
      exact Hev.
Qed.

Lemma file_run_counts (repo_id : string) (local_dir : Path) (f : string)
    (evs : list event) (o : option Path) :
  file_run repo_id local_dir f evs o ->
  length (filter is_fetch evs) <= 1 /\ length evs <= 3.
Proof. inversion 1; subst; cbn; lia. Qed.

Lemma batch_run_counts (repo_id : string) (local_dir : Path)
    (files : list string) (evs : list event) (got : list Path) :
  batch_run repo_id local_dir files evs got ->
  length (filter is_fetch evs) <= length files
  /\ length evs <= 3 * length files
  /\ length got <= length files.
Proof.
  induction 1 as [|f rest evs o evs' got Hrun Hbatch IH].
  - cbn. lia.
  - destruct (file_run_counts _ _ _ _ _ Hrun) as [H1 H3].
    rewrite filter_app, !length_app. cbn [length].
    destruct o; cbn [length]; lia.
Qed.

Lemma disjoint_filters_length {A : Type} (f g : A -> bool) (l : list A) :
  (forall x, f x = true -> g x = false) ->
  length (filter f l) + length (filter g l) <= length l.
Proof.
  intro H. induction l as [|x l IH]; [cbn; lia |].
  cbn [filter]. destruct (f x) eqn:Ef.
  - rewrite (H x Ef). cbn [length]. lia.
  - destruct (g x); cbn [length]; lia.
Qed.

Lemma dict_fromkeys_length (l : list string) :
  length (dict_fromkeys l) <= length l.
Proof.
  induction l as [|x l IH]; [cbn; lia |].
  rewrite dict_fromkeys_cons. cbn [length].
  pose proof (filter_length_le (fun y => negb (y =? x)) (dict_fromkeys l)).
  lia.
Qed.

Lemma filter_outputs_length (files : list string)
    (variants : option (list string)) :
  length (onnx (filter_files_by_variants files variants))
  + length (config (filter_files_by_variants files variants))
  <= length files.
Proof.
  assert (H : forall vs,
             length (onnx (filter_files_by_variants files (Some vs)))
             + length (config (filter_files_by_variants files variants))
             <= length files).
  { intro vs. rewrite onnx_as_filter, config_as_filter.
    pose proof (dict_fromkeys_length files).
    pose proof (disjoint_filters_length (selected vs) essential
                  (dict_fromkeys files)) as Hd.
    assert (Hdis : forall x, selected vs x = true -> essential x = false).
    { intros x Hx. unfold selected in Hx. apply andb_true_iff in Hx as [Hc _].
      destruct (essential x) eqn:Ee; [| reflexivity].
      apply essential_not_candidate in Ee. congruence. }
    specialize (Hd Hdis). lia. }
  destruct variants as [vs|]; [apply H |].
  exact (H ["full"; "fp16"; "int8"; "q4"]).
Qed.

Lemma onnx_NoDup (files : list string) (variants : option (list string)) :
  NoDup (onnx (filter_files_by_variants files variants)).
Proof.
  destruct variants as [vs|].
  - rewrite onnx_as_filter. apply NoDup_filter, dict_fromkeys_NoDup.
  - change (filter_files_by_variants files None)
      with (filter_files_by_variants files
              (Some ["full"; "fp16"; "int8"; "q4"])).
    rewrite onnx_as_filter. apply NoDup_filter, dict_fromkeys_NoDup.
Qed.

Lemma config_NoDup (files : list string) (variants : option (list string)) :
  NoDup (config (filter_files_by_variants files variants)).
Proof.
  rewrite config_as_filter. apply NoDup_filter, dict_fromkeys_NoDup.
Qed.

Lemma onnx_listed_candidate (files : list string)
    (variants : option (list string)) (f : string) :
  In f (onnx (filter_files_by_variants files variants)) ->
  In f files /\ is_onnx_candidate f = true.
Proof.
  destruct variants as [vs|]; intro H.
  - apply onnx_In in H. tauto.
  - change (filter_files_by_variants files None)
      with (filter_files_by_variants files
              (Some ["full"; "fp16"; "int8"; "q4"])) in H.
    apply onnx_In in H. tauto.
Qed.

Lemma kept_once (files : list string) (variants : option (list string))
    (f : string) :
  In f (onnx (filter_files_by_variants files variants)) ->
  In f (config (filter_files_by_variants files variants)) -> False.
Proof.
  intros Ho Hc. apply onnx_listed_candidate in Ho as [_ Ho].
  apply config_In in Hc as [_ Hc]. apply essential_not_candidate in Hc.
  congruence.
Qed.

Lemma file_run_fetch_of (repo_id : string) (local_dir : Path) (f g : string)
    (evs : list event) (o : option Path) :
  file_run repo_id local_dir f evs o ->
  length (filter (is_fetch_of g) evs) <= (if f =? g then 1 else 0).
Proof.
  inversion 1; subst; cbn [filter is_fetch_of length];
    destruct (f =? g); cbn [length]; lia.
Qed.

Lemma batch_run_fetch_of (repo_id : string) (local_dir : Path)
    (files : list string) (evs : list event) (got : list Path) (g : string) :
  batch_run repo_id local_dir files evs got -> NoDup files ->
  length (filter (is_fetch_of g) evs) <= (if mem g files then 1 else 0).
Proof.
  induction 1 as [|f rest evs o evs' got Hrun Hbatch IH]; intro Hnd.
  - cbn. lia.
  - inversion Hnd as [|? ? Hnotin Hnd']; subst.
    pose proof (file_run_fetch_of _ _ _ g _ _ Hrun) as H1.
    specialize (IH Hnd'). rewrite filter_app, length_app.
    unfold mem in *. cbn [existsb]. rewrite (String.eqb_sym g f).
    destruct (f =? g) eqn:E.
    + apply String.eqb_eq in E. subst g.
      assert (Hm : existsb (String.eqb f) rest = false).
      { destruct (existsb (String.eqb f) rest) eqn:Em; [| reflexivity].
        exfalso. apply Hnotin. now apply (mem_In f rest). }
      rewrite Hm in IH. cbn [orb]. lia.
    + cbn [orb]. lia.
Qed.

Section RunShape.
Context {World : Type} {hub : Hub World}.

(** X12. In a run of [download_model] that resolves and lists, whether it
    returns or a [print] raises, the requests are the listing, once and
    first, and then either nothing more or two batches as the collaborators
    answer them: the ONNX files the filter kept, then the config files it
    kept. Every request after the listing is, for a listed path [f] of its
    batch, the existence check of [local_dir / f] as [pathlib] joins it,
    the creation of the parent of that path, or the fetch of [f] from the
    resolved repository with [local_dir] as target. No file name is fetched
    more than once; in all there are no more fetches than listed paths and
    no more requests after the listing than three times that number. *)
Theorem download_model_requests (self : ModelDownloader)
    (model_name : string) (variants : option (list string)) (s : State)
    (repo_id : string) (all_files : list string) (w1 : World) :
  resolve_repo_id model_name = Ok repo_id ->
  list_repo_files repo_id (fst s) = (Ok all_files, w1) ->
  let local_dir :=
    subdir (output_dir self) (dir_name_of model_name repo_id) in
  let filtered := filter_files_by_variants all_files variants in
  let request_for (batch : list string) (ev : event) : Prop :=
    exists f,
      In f all_files /\ In f batch
      /\ ((exists r, ev = EvExists (local_dir // f) r)
          \/ (exists r, ev = EvMkdir (parent (local_dir // f)) r)
          \/ (exists r, ev = EvFetch repo_id f local_dir r)) in
  exists r evs1 evs2 w',
    download_model self model_name variants s
    = (r, (w', snd s ++ EvListFiles repo_id (Ok all_files) :: evs1 ++ evs2))
    /\ ((evs1 = [] /\ evs2 = [])
        \/ exists got1 got2 w2 w3 w4,
             batch_exec repo_id local_dir w2 (onnx filtered) evs1 got1 w3
             /\ batch_exec repo_id local_dir w3 (config filtered)
                  evs2 got2 w4)
    /\ (forall ev, In ev evs1 -> request_for (onnx filtered) ev)
    /\ (forall ev, In ev evs2 -> request_for (config filtered) ev)
    /\ (forall ev, In ev (evs1 ++ evs2) -> is_listing ev = false)
    /\ (forall f, length (filter (is_fetch_of f) (evs1 ++ evs2)) <= 1)
    /\ length (filter is_fetch (evs1 ++ evs2)) <= length all_files
    /\ length (evs1 ++ evs2) <= 3 * length all_files.
Proof.
  intros Hr Hl local_dir filtered request_for.
  destruct (download_model_run self model_name variants s repo_id
              all_files w1 Hr Hl)
    as (r & evs1 & evs2 & w' & E & _ & Hshape).
  fold local_dir in E, Hshape. fold filtered in Hshape.
  exists r, evs1, evs2, w'. split; [exact E |].
  assert (Hquiet : evs1 = [] /\ evs2 = [] ->
            ((evs1 = [] /\ evs2 = [])
             \/ exists got1 got2 w2 w3 w4,
                  batch_exec repo_id local_dir w2 (onnx filtered)
                    evs1 got1 w3
                  /\ batch_exec repo_id local_dir w3 (config filtered)
                       evs2 got2 w4)
            /\ (forall ev, In ev evs1 -> request_for (onnx filtered) ev)
            /\ (forall ev, In ev evs2 -> request_for (config filtered) ev)
            /\ (forall ev, In ev (evs1 ++ evs2) -> is_listing ev = false)
            /\ (forall f, length (filter (is_fetch_of f) (evs1 ++ evs2)) <= 1)
            /\ length (filter is_fetch (evs1 ++ evs2)) <= length all_files
            /\ length (evs1 ++ evs2) <= 3 * length all_files).
  { intros [-> ->]. split; [now left |].
    split; [intros ev [] |]. split; [intros ev [] |].
    split; [intros ev [] |]. cbn. repeat split; lia. }
  destruct Hshape as [(_ & _ & H1 & H2 & _)
                     | [(_ & H1 & H2 & _)
                       | (_ & got1 & got2 & w2 & w3 & w4 & X1 & X2)]];
    [now apply Hquiet | now apply Hquiet |].
  pose proof (batch_exec_run _ _ _ _ _ _ _ X1) as B1.
  pose proof (batch_exec_run _ _ _ _ _ _ _ X2) as B2.
  split; [right; now exists got1, got2, w2, w3, w4 |].
  assert (Hev1 : forall ev, In ev evs1 -> request_for (onnx filtered) ev).
  { intros ev Hin.
    destruct (batch_run_events _ _ _ _ _ _ B1 Hin) as (f & Hf & Hk).
    exists f. split; [| split; [exact Hf | exact Hk]].
    exact (proj1 (onnx_listed_candidate _ _ _ Hf)). }
  assert (Hev2 : forall ev, In ev evs2 -> request_for (config filtered) ev).
  { intros ev Hin.
    destruct (batch_run_events _ _ _ _ _ _ B2 Hin) as (f & Hf & Hk).
    exists f. split; [| split; [exact Hf | exact Hk]].
    now apply config_In in Hf. }
  split; [exact Hev1 |]. split; [exact Hev2 |]. split; [| split].
  - intros ev Hin. apply in_app_or in Hin as [Hin | Hin].
    + destruct (Hev1 ev Hin) as (f & _ & _ & [[? ->] | [[? ->] | [? ->]]]);
        reflexivity.
    + destruct (Hev2 ev Hin) as (f & _ & _ & [[? ->] | [[? ->] | [? ->]]]);
        reflexivity.
  - intro f. rewrite filter_app, length_app.
    pose proof (batch_run_fetch_of _ _ _ _ _ f B1
                  (onnx_NoDup all_files variants)) as F1.
    pose proof (batch_run_fetch_of _ _ _ _ _ f B2
                  (config_NoDup all_files variants)) as F2.
    fold filtered in F1, F2.
    destruct (mem f (onnx filtered)) eqn:M1;
      destruct (mem f (config filtered)) eqn:M2; try lia.
    exfalso. apply mem_In in M1. apply mem_In in M2.
    exact (kept_once all_files variants f M1 M2).
  - destruct (batch_run_counts _ _ _ _ _ B1) as (F1 & L1 & _).
    destruct (batch_run_counts _ _ _ _ _ B2) as (F2 & L2 & _).
    pose proof (filter_outputs_length all_files variants) as Hlen.
    fold filtered in Hlen.
    rewrite filter_app, !length_app. split; lia.
Qed.

(** X13. When every [print] goes through, the exit status of [main] is
    decided by the arguments, the resolution and the listing alone: 0
    under [--list]; 2 for a missing or empty [--model] or a [--variants]
    string that does not parse; 1 when the name does not resolve or the
    listing fails; 0 otherwise, whatever happens to the single files. *)
Theorem main_exit_status (script_dir : Path) (args : Args) (s : State) :
  prints_succeed hub ->
  fst (main script_dir args s)
  = if arg_list args then 0%N
    else match arg_model args with
         | None => 2%N
         | Some model =>
             if model =? EmptyString then 2%N
             else match parse_variants (arg_variants args) with
                  | Raise _ => 2%N
                  | Ok _ =>
                      match resolve_repo_id model with
                      | Raise _ => 1%N
                      | Ok repo_id =>
                          match fst (list_repo_files repo_id (fst s)) with
                          | Ok _ => 0%N
                          | Raise _ => 1%N
                          end
                      end
                  end
         end.
Proof.
  intro Hprints.
  unfold main. destruct (arg_list args); [reflexivity |].
  destruct (arg_model args) as [model|]; [| reflexivity].
  destruct (model =? EmptyString); [reflexivity |].
  destruct (parse_variants (arg_variants args)) as [variants|e] eqn:Ep.
  - destruct (resolve_repo_id model) as [repo_id|e0] eqn:Hr.
    + destruct (list_repo_files repo_id (fst s)) as [[files|e1] w1] eqn:Hl.
      * match goal with
        | |- context [download_model ?d model variants s] =>
            destruct (download_model_run d model variants s repo_id files w1
                        Hr Hl) as (r & evs1 & evs2 & w' & E & Hres & _)
        end.
        rewrite E. destruct Hres as [-> | (e & -> & He)]; [reflexivity |].
        now apply (prints_succeed_never_raise e) in Hprints.
      * unfold download_model, bind, lift. rewrite Hr.
        destruct (get_repo_files_raises repo_id s e1 w1 Hl) as (e' & E & _).
        now rewrite E.
    + unfold download_model, bind, lift. now rewrite Hr.
  - assert (He : exists msg, e = ValueError msg).
    { unfold parse_variants in Ep.
      destruct (arg_variants args) as [vs|]; [| discriminate].
      destruct (vs =? EmptyString); [discriminate |].
      destruct (check_variants _) as [[]|e0] eqn:Ec; [discriminate |].
      injection Ep as <-.
      apply check_variants_first_invalid in Ec as (? & v & ? & _ & _ & _ & ->).
      eexists. reflexivity. }
    destruct He as [msg ->]. reflexivity.
Qed.

End RunShape.

Lemma scenario_prints : prints_succeed Scenario.hub.
Proof. intros m w. exists w. reflexivity. Qed.

(** X12 in the small world, for the name [qwen3] and no variants. *)
Lemma download_model_requests_witness :
  resolve_repo_id "qwen3" = Ok "onnx-community/Qwen3-1.7B-ONNX"
  /\ list_repo_files (Hub := Scenario.hub) "onnx-community/Qwen3-1.7B-ONNX"
       (fst Scenario.start)
     = (Ok Scenario.listing, fst Scenario.start)
  /\ exists r evs1 evs2 w',
       download_model (hub := Scenario.hub)
         (mkDownloader Scenario.models_dir) "qwen3" None Scenario.start
       = (r, (w', EvListFiles "onnx-community/Qwen3-1.7B-ONNX"
                    (Ok Scenario.listing) :: evs1 ++ evs2))
       /\ forall f, length (filter (is_fetch_of f) (evs1 ++ evs2)) <= 1.
Proof.
  split; [reflexivity | split; [reflexivity |]].
  destruct (download_model_requests (hub := Scenario.hub)
              (mkDownloader Scenario.models_dir) "qwen3" None Scenario.start
              "onnx-community/Qwen3-1.7B-ONNX" Scenario.listing
              (fst Scenario.start) eq_refl eq_refl)
    as (r & evs1 & evs2 & w' & E & _ & _ & _ & _ & Hf & _).
  exists r, evs1, evs2, w'. split; [exact E | exact Hf].
Defined.

(** X13 in the small world: one fetch of the batch fails and the status
    is 0 all the same. *)
Lemma main_exit_status_witness :
  prints_succeed Scenario.hub
  /\ fst (main (hub := Scenario.hub) Scenario.models_dir
            (mkArgs false (Some "qwen3") (Some "full") None)
            Scenario.start) = 0%N.
Proof.
  split; [exact scenario_prints |].
  exact (main_exit_status (hub := Scenario.hub) Scenario.models_dir
           (mkArgs false (Some "qwen3") (Some "full") None)
           Scenario.start scenario_prints).
Defined.

(** Behind a terminal that cannot encode the check mark, the same command
    fetches its files and ends with status 1: the closing summary raises
    inside [download_model]. *)
Example check_mark_exit_status :
  fst (main (hub := Scenario.ascii_hub) Scenario.models_dir
         (mkArgs false (Some "qwen3") (Some "int8") None) Scenario.start)
  = 1%N
  /\ fst (main (hub := Scenario.hub) Scenario.models_dir
            (mkArgs false (Some "qwen3") (Some "int8") None) Scenario.start)
     = 0%N.
Proof. split; vm_compute; reflexivity. Qed.

(** ** Running a batch again *)

Section Rerun.
Context {World : Type} {hub : Hub World}.
Hypothesis laws : FileSystemLaws hub.

Lemma download_iter_lawful (repo_id : string) (local_dir : Path)
    (f : string) (downloaded : list Path) (s : State) :
  exists evs o w',
    download_iter repo_id local_dir f downloaded s
    = (Ok (match o with Some p => downloaded ++ [p] | None => downloaded end),
       (w', snd s ++ evs))
    /\ file_run repo_id local_dir f evs o
    /\ (forall p, present p (fst s) -> present p w')
    /\ (forall p, o = Some p -> present p w')
    /\ (present (local_dir // f) (fst s) ->
        evs = [EvExists (local_dir // f) (Ok true)]
        /\ o = Some (local_dir // f) /\ w' = fst s).
Proof.
  unfold download_iter, try_except, bind, call, ret.
  destruct s as [w tr]. cbn [fst snd].
  destruct (exists_reads hub laws (local_dir // f) w) as [b Eb].
  rewrite Eb. destruct b.
  - exists [EvExists (local_dir // f) (Ok true)], (Some (local_dir // f)), w.
    split; [reflexivity |]. split; [constructor |].
    split; [trivial |]. split; [| now intros _].
    intros p Hp. injection Hp as <-. exact Eb.
  - cbn [fst snd].
    destruct (mkdir_parents (parent (local_dir // f)) w) as [[[]|e] w2] eqn:Em.
    + cbn [fst snd].
      destruct (hf_hub_download repo_id f local_dir w2) as [[[]|e] w3] eqn:Ef.
      * eexists _, (Some (local_dir // f)), w3.
        rewrite <- !app_assoc. split; [reflexivity |].
        split; [apply run_fetched |]. split; [| split].
        -- intros p Hp. eapply (fetch_keeps hub laws); [exact Ef |].
           eapply (mkdir_keeps hub laws); [exact Em | exact Hp].
        -- intros p Hp. injection Hp as <-.
           eapply (fetch_creates hub laws). exact Ef.
        -- intro Hp. unfold present in Hp. rewrite Eb in Hp. discriminate.
      * eexists _, None, w3.
        rewrite <- !app_assoc. split; [reflexivity |].
        split; [apply run_fetch_failed |]. split; [| split].
        -- intros p Hp. eapply (fetch_keeps hub laws); [exact Ef |].
           eapply (mkdir_keeps hub laws); [exact Em | exact Hp].
        -- discriminate.
        -- intro Hp. unfold present in Hp. rewrite Eb in Hp. discriminate.
    + eexists _, None, w2.
      rewrite <- !app_assoc. split; [reflexivity |].
      split; [apply run_mkdir_failed |]. split; [| split].
      * intros p Hp. eapply (mkdir_keeps hub laws); [exact Em | exact Hp].
      * discriminate.
      * intro Hp. unfold present in Hp. rewrite Eb in Hp. discriminate.
Qed.

Lemma download_loop_lawful (repo_id : string) (local_dir : Path)
    (files : list string) :
  forall (downloaded : list Path) (s : State),
  exists evs got w',
    download_loop repo_id local_dir files downloaded s
    = (Ok (downloaded ++ got), (w', snd s ++ evs))
    /\ batch_run repo_id local_dir files evs got
    /\ (forall p, present p (fst s) -> present p w')
    /\ (forall p, In p got -> present p w')
    /\ (forall f, In f files -> present (local_dir // f) (fst s) ->
          In (EvExists (local_dir // f) (Ok true)) evs
          /\ In (local_dir // f) got
          /\ forall r, ~ In (EvFetch repo_id f local_dir r) evs).
Proof.
  induction files as [|f0 files IH]; intros downloaded s.
  - exists [], [], (fst s). rewrite !app_nil_r. destruct s.
    split; [reflexivity |]. split; [constructor |].
    split; [trivial |]. split; [intros p [] | intros f []].
  - cbn [download_loop]. unfold bind.
    destruct (download_iter_lawful repo_id local_dir f0 downloaded s)
      as (evs0 & o & w1 & E0 & Hrun & Hkeep0 & Hnew0 & Hpres0).
    rewrite E0.
    destruct (IH (match o with Some p => downloaded ++ [p]
                          | None => downloaded end)
                 (w1, snd s ++ evs0))
      as (evs' & got & w2 & E' & Hbatch & Hkeep & Hgot & Hfiles).
    rewrite E'. cbn [fst snd] in *.
    exists (evs0 ++ evs'),
           (match o with Some p => p :: got | None => got end), w2.
    split.
    { rewrite <- app_assoc. destruct o; [rewrite <- app_assoc |]; reflexivity. }
    split; [now constructor |].
    split; [intros p Hp; apply Hkeep, Hkeep0, Hp |].
    split.
    { intros p Hp. destruct o as [q|]; [| now apply Hgot].
      destruct Hp as [<- | Hp]; [| now apply Hgot].
      apply Hkeep. now apply Hnew0. }
    intros f Hf Hp.
    assert (Hrest : In f files ->
              In (EvExists (local_dir // f) (Ok true)) evs'
              /\ In (local_dir // f) got
              /\ forall r, ~ In (EvFetch repo_id f local_dir r) evs').
    { intro Hin. apply Hfiles; [exact Hin | now apply Hkeep0]. }
    assert (Hnofetch0 : forall r, ~ In (EvFetch repo_id f local_dir r) evs0).
    { intros r Hin.
      destruct (file_run_fetch _ _ _ _ _ _ _ Hrun Hin) as [-> _].
      destruct (Hpres0 Hp) as (-> & _ & _).
      destruct Hin as [Hin | []]. discriminate Hin. }
    assert (Hnofetch : forall r,
              ~ In (EvFetch repo_id f local_dir r) (evs0 ++ evs')).
    { intros r Hin. apply in_app_or in Hin as [Hin | Hin].
      - exact (Hnofetch0 r Hin).
      - pose proof (batch_run_fetch_file _ _ _ _ _ _ _ Hbatch Hin) as Hin'.
        destruct (Hrest Hin') as (_ & _ & Hno). exact (Hno r Hin). }
    destruct Hf as [<- | Hf].
    + destruct (Hpres0 Hp) as (-> & -> & _).
      split; [now left |]. split; [now left | exact Hnofetch].
    + destruct (Hrest Hf) as (Hex & Hin & _).
      split; [apply in_or_app; now right |].
      split; [destruct o; [now right | exact Hin] | exact Hnofetch].
Qed.

(** X14. On a file system that nothing else writes to, a batch can be run
    again: every file the first run returned is found present by the second
    run, returned again, and not fetched again. Only the files the first
    run failed on are tried once more. *)
Theorem download_files_rerun (repo_id : string) (files : list string)
    (local_dir : Path) (s s1 : State) (got : list Path)
    (tr : list event) :
  download_files repo_id files local_dir s = (Ok got, s1) ->
  exists evs2 got2 w2,
    download_files repo_id files local_dir (fst s1, tr)
    = (Ok got2, (w2, tr ++ evs2))
    /\ forall f, In f files -> In (local_dir // f) got ->
         In (EvExists (local_dir // f) (Ok true)) evs2
         /\ In (local_dir // f) got2
         /\ forall r, ~ In (EvFetch repo_id f local_dir r) evs2.
Proof.
  intro H1. unfold download_files in *.
  destruct (download_loop_lawful repo_id local_dir files [] s)
    as (evs1 & got1 & w1 & E1 & _ & _ & Hgot1 & _).
  rewrite E1 in H1. injection H1 as <- <-. cbn [fst app] in *.
  destruct (download_loop_lawful repo_id local_dir files [] (w1, tr))
    as (evs2 & got2 & w2 & E2 & _ & _ & _ & Hfiles).
  exists evs2, got2, w2. split; [exact E2 |].
  intros f Hf Hin. apply Hfiles; [exact Hf |]. now apply Hgot1.
Qed.

End Rerun.

Lemma parts_eqb_refl (l : list string) : Scenario.parts_eqb l l = true.
Proof.
  induction l as [|x l IH]; [reflexivity |].
  cbn [Scenario.parts_eqb]. now rewrite String.eqb_refl, IH.
Qed.

Lemma path_eqb_refl (p : Path) : Scenario.path_eqb p p = true.
Proof.
  unfold Scenario.path_eqb. now rewrite String.eqb_refl, parts_eqb_refl.
Qed.

Lemma scenario_present (p : Path) (w : Scenario.World) :
  present (hub := Scenario.hub) p w
  <-> existsb (Scenario.path_eqb p) w = true.
Proof.
  unfold present. cbn [path_exists Scenario.hub]. split.
  - intro H. now injection H.
  - intro H. now rewrite H.
Qed.

(** The small world obeys the file-system laws. *)
Lemma scenario_laws : FileSystemLaws Scenario.hub.
Proof.
  constructor.
  - intros p w. eexists. reflexivity.
  - intros q w r w' p H. cbn [mkdir_parents Scenario.hub] in H.
    now injection H as _ <-.
  - intros repo_id f d w r w' p H. cbn [hf_hub_download Scenario.hub] in H.
    destruct (str_in "broken" f).
    + now injection H as _ <-.
    + injection H as _ <-. rewrite !scenario_present. cbn [existsb].
      intro Hp. rewrite Hp. apply orb_true_r.
  - intros repo_id f d w w' H. cbn [hf_hub_download Scenario.hub] in H.
    destruct (str_in "broken" f); [discriminate |].
    injection H as <-. apply scenario_present. cbn [existsb].
    now rewrite path_eqb_refl.
Qed.

(** X14 in the small world: [tokenizer.json] is fetched by the first run
    and found by the second. *)
Lemma download_files_rerun_witness :
  let dir := Scenario.models_dir // "x-HF" in
  let files := ["tokenizer.json"; "onnx/broken_model.onnx"] in
  let run1 := download_files (hub := Scenario.hub) "r/x" files dir
                Scenario.start in
  fst run1 = Ok [dir // "tokenizer.json"]
  /\ exists evs2 got2 w2,
       download_files (hub := Scenario.hub) "r/x" files dir
         (fst (snd run1), [])
       = (Ok got2, (w2, evs2))
       /\ In (dir // "tokenizer.json") got2
       /\ forall r, ~ In (EvFetch "r/x" "tokenizer.json" dir r) evs2.
Proof.
  cbv zeta. split; [vm_compute; reflexivity |].
  destruct (download_files_rerun (hub := Scenario.hub) scenario_laws "r/x"
              ["tokenizer.json"; "onnx/broken_model.onnx"]
              (Scenario.models_dir // "x-HF") Scenario.start
              (snd (download_files (hub := Scenario.hub) "r/x"
                      ["tokenizer.json"; "onnx/broken_model.onnx"]
                      (Scenario.models_dir // "x-HF") Scenario.start))
              [Scenario.models_dir // "x-HF" // "tokenizer.json"] [])
    as (evs2 & got2 & w2 & E & Hf).
  { vm_compute. reflexivity. }
  exists evs2, got2, w2. split; [exact E |].
  destruct (Hf "tokenizer.json") as (_ & Hin & Hno).
  - now left.
  - now left.
  - split; [exact Hin | exact Hno].
Defined.

(** ** Requests and exit status *)

Section QuietExits.
Context {World : Type} {hub : Hub World}.

(** X15. [main] asks nothing of the hub or of the file system unless it
    gets as far as [download_model] with a name that resolves: under
    [--list], on exit status 2, and when the model name is unknown, the
    state it ends in is the state it started from. *)
Theorem main_quiet_exits (script_dir : Path) (args : Args) (s : State) :
  (arg_list args = true -> main script_dir args s = (0%N, s))
  /\ (fst (main script_dir args s) = 2%N -> snd (main script_dir args s) = s)
  /\ (forall model e,
        arg_list args = false -> arg_model args = Some model ->
        resolve_repo_id model = Raise e ->
        snd (main script_dir args s) = s).
Proof.
  unfold main. split; [| split].
  - intros ->. reflexivity.
  - destruct (arg_list args); [discriminate |].
    destruct (arg_model args) as [model|]; [| reflexivity].
    destruct (model =? EmptyString); [reflexivity |].
    destruct (parse_variants (arg_variants args)) as [variants|[]];
      try reflexivity; try discriminate.
    destruct (download_model _ model variants s) as [[p|e] s'];
      discriminate.
  - intros model e -> -> Hr.
    destruct (model =? EmptyString); [reflexivity |].
    destruct (parse_variants (arg_variants args)) as [variants|[]];
      try reflexivity.
    unfold download_model, bind, lift. now rewrite Hr.
Qed.

End QuietExits.

(** ** Directory names *)

Lemma replace_app (a b : ascii) (x y : string) :
  replace a b (x ++ y) = (replace a b x ++ replace a b y)%string.
Proof.
  induction x as [|c x IH]; [reflexivity |].
  cbn [append replace]. now rewrite IH.
Qed.

Lemma str_in_app_middle (x y : string) :
  str_in "/" (x ++ String "/" y) = true.
Proof.
  induction x as [|c x IH].
  - cbn [append]. now rewrite str_in_slash_cons.
  - cbn [append]. rewrite str_in_slash_cons, IH. apply orb_true_r.
Qed.

Lemma str_in_slash_app (x y : string) :
  str_in "/" y = true -> str_in "/" (x ++ y) = true.
Proof.
  intro H. induction x as [|c x IH]; [exact H |].
  cbn [append]. rewrite str_in_slash_cons, IH. apply orb_true_r.
Qed.

Lemma slash_is_no_key (model_name : string) :
  str_in "/" model_name = true -> dict_has MODEL_REGISTRY model_name = false.
Proof.
  intro Hs. destruct (dict_has MODEL_REGISTRY model_name) eqn:E;
    [| reflexivity].
  apply dict_has_lookup, dict_keys_lookup in E. cbn in E.
  repeat (destruct E as [<- | E]; [discriminate Hs |]). contradiction.
Qed.

Lemma resolve_with_slash (model_name : string) :
  str_in "/" model_name = true -> resolve_repo_id model_name = Ok model_name.
Proof.
  intro Hs. unfold resolve_repo_id.
  now rewrite (slash_is_no_key model_name Hs), Hs.
Qed.

(** X16. The directory name does not determine the repository. Two
    repository ids that differ only in which of two separators is the slash
    and which the dash, [a/b-c] and [a-b/c], are different, both are taken
    as they are, and both get the same directory name. *)
Theorem distinct_repos_share_a_directory (a b c : string) :
  let r1 := (a ++ String "/" (b ++ String "-" c))%string in
  let r2 := (a ++ String "-" (b ++ String "/" c))%string in
  r1 <> r2
  /\ resolve_repo_id r1 = Ok r1
  /\ resolve_repo_id r2 = Ok r2
  /\ dir_name_of r1 r1 = dir_name_of r2 r2.
Proof.
  cbv zeta. split; [| split; [| split]].
  - induction a as [|x a IH]; cbn [append].
    + discriminate.
    + intro H. injection H as H. now apply IH.
  - apply resolve_with_slash, str_in_app_middle.
  - apply resolve_with_slash, str_in_slash_app.
    rewrite str_in_slash_cons, str_in_app_middle. apply orb_true_r.
  - unfold dir_name_of.
    rewrite (slash_is_no_key _
               (str_in_app_middle a (b ++ String "-" c)%string)).
    assert (H2 : str_in "/" (a ++ String "-" (b ++ String "/" c)) = true).
    { apply str_in_slash_app.
      rewrite str_in_slash_cons, str_in_app_middle. apply orb_true_r. }
    rewrite (slash_is_no_key _ H2). f_equal.
    rewrite !replace_app. cbn [replace]. rewrite !replace_app.
    cbn [replace]. reflexivity.
Qed.

(** ** External-data files *)

Lemma prefix_nil (s : string) : prefix EmptyString s = true.
Proof. now destruct s. Qed.

Lemma prefix_carries_last (c : ascii) (p : string) :
  forall S, endswith p (String c EmptyString) = true ->
            prefix p S = true -> str_in (String c EmptyString) S = true.
Proof.
  induction p as [|a p IH]; intros S He Hp.
  - discriminate He.
  - destruct S as [|b S]; [discriminate Hp |].
    cbn [prefix] in Hp. destruct (ascii_dec a b) as [<- | Hne];
      [| discriminate Hp].
    cbn [endswith] in He. apply orb_true_iff in He as [He | He].
    + apply String.eqb_eq in He. injection He as -> ->.
      cbn [str_in prefix]. destruct (ascii_dec c c); [| congruence].
      now rewrite Hp.
    + cbn [str_in]. rewrite (IH S He Hp). apply orb_true_r.
Qed.

Lemma str_in_carries_last (c : ascii) (p S : string) :
  endswith p (String c EmptyString) = true ->
  str_in p S = true -> str_in (String c EmptyString) S = true.
Proof.
  intro He. induction S as [|b S IH]; cbn [str_in]; intro H.
  - rewrite orb_false_r in H. exact (prefix_carries_last c p _ He H).
  - apply orb_true_iff in H as [H | H].
    + exact (prefix_carries_last c p _ He H).
    + change (str_in (String c EmptyString) (String b S) = true).
      cbn [str_in]. rewrite (IH H). apply orb_true_r.
Qed.

Lemma endswith_tail (c a : ascii) (p : string) :
  p <> EmptyString ->
  endswith (String a p) (String c EmptyString) = true ->
  endswith p (String c EmptyString) = true.
Proof.
  intros Hne H. cbn [endswith] in H. apply orb_true_iff in H as [H | H].
  - apply String.eqb_eq in H. injection H as _ ->. congruence.
  - exact H.
Qed.

Lemma prefix_app_no_last (c : ascii) (S : string) :
  str_in (String c EmptyString) S = false ->
  forall X p, endswith p (String c EmptyString) = true ->
              prefix p (X ++ S) = prefix p X.
Proof.
  intros Hs X. induction X as [|a X IH]; intros p He.
  - cbn [append]. destruct (prefix p S) eqn:Ep.
    + rewrite (prefix_carries_last c p S He Ep) in Hs. discriminate.
    + destruct p; [discriminate He | reflexivity].
  - destruct p as [|b p]; [discriminate He |].
    cbn [append prefix]. destruct (ascii_dec b a); [| reflexivity].
    destruct p as [|b' p]; [now rewrite !prefix_nil |].
    apply IH. apply (endswith_tail c b); [discriminate | exact He].
Qed.

Lemma str_in_app_no_last (c : ascii) (p X S : string) :
  endswith p (String c EmptyString) = true ->
  str_in (String c EmptyString) S = false ->
  str_in p (X ++ S) = str_in p X.
Proof.
  intros He Hs. induction X as [|a X IH].
  - cbn [append]. destruct (str_in p S) eqn:Ep.
    + rewrite (str_in_carries_last c p S He Ep) in Hs. discriminate.
    + destruct p; [discriminate He | reflexivity].
  - change (String a X ++ S)%string with (String a (X ++ S)).
    cbn [str_in]. rewrite IH. f_equal.
    exact (prefix_app_no_last c S Hs (String a X) p He).
Qed.

Lemma lower_app (x y : string) :
  lower (x ++ y) = (lower x ++ lower y)%string.
Proof.
  induction x as [|c x IH]; [reflexivity |].
  cbn [append lower]. now rewrite IH.
Qed.

Lemma endswith_app (s a b : string) :
  endswith s a = true -> endswith (s ++ b) (a ++ b) = true.
Proof.
  induction s as [|c s IH]; cbn [endswith]; intro H.
  - rewrite orb_false_r in H. apply String.eqb_eq in H. subst a.
    destruct b; cbn [append endswith]; now rewrite String.eqb_refl.
  - apply orb_true_iff in H as [H | H].
    + apply String.eqb_eq in H. subst a.
      change (String c s ++ b)%string with (String c (s ++ b)).
      cbn [endswith]. now rewrite String.eqb_refl.
    + change (String c s ++ b)%string with (String c (s ++ b)).
      cbn [endswith]. rewrite (IH H). apply orb_true_r.
Qed.

Lemma every_pattern_ends_in_x (p : string) :
  In p (concat (dict_values VARIANT_PATTERNS)) -> endswith p "x" = true.
Proof.
  cbn. intro H.
  repeat (destruct H as [<- | H]; [reflexivity |]). contradiction.
Qed.

Lemma dict_get_pattern (v p : string) :
  In p (dict_get VARIANT_PATTERNS v []) ->
  In p (concat (dict_values VARIANT_PATTERNS)).
Proof.
  unfold dict_get.
  destruct (dict_lookup VARIANT_PATTERNS v) as [l|] eqn:E; [| intros []].
  intro Hp. apply in_concat. exists l. split; [| exact Hp].
  exact (dict_lookup_values _ _ _ E).
Qed.

Lemma existsb_ext_in {A : Type} (f g : A -> bool) (l : list A) :
  (forall x, In x l -> f x = g x) -> existsb f l = existsb g l.
Proof.
  intro H. induction l as [|x l IH]; [reflexivity |].
  cbn [existsb]. rewrite (H x (or_introl eq_refl)). f_equal.
  apply IH. intros y Hy. apply H. now right.
Qed.

Lemma pattern_hit_data (l : list string) (X : string) :
  (forall p, In p l -> In p (concat (dict_values VARIANT_PATTERNS))) ->
  existsb (fun p => str_in p (X ++ "_data")) l
  = existsb (fun p => str_in p X) l.
Proof.
  intro H. apply existsb_ext_in. intros p Hp.
  apply (str_in_app_no_last "x"); [| reflexivity].
  apply every_pattern_ends_in_x, H, Hp.
Qed.

Lemma tag_match_data (X t : string) :
  tag_match (X ++ "_data") t = tag_match X t.
Proof.
  unfold tag_match, full_branch, other_branch.
  destruct (t =? "full").
  - rewrite !pattern_hit_data; [reflexivity | |].
    + intros p Hp. cbn in Hp |- *. tauto.
    + intros p Hp. unfold non_base_patterns in Hp.
      now apply filter_In in Hp.
  - apply pattern_hit_data. intros p. apply dict_get_pattern.
Qed.

(** X17. An external-data file follows its model: for a listed model path
    [f] ending in [.onnx] whose companion [f_data] is listed too, the
    companion is an ONNX file of the result exactly when [f] is, whatever
    the tags. No pattern can match across the [_data] ending, since every
    pattern ends in [x]. *)
Theorem external_data_follows_model (files vs : list string) (f : string) :
  endswith f ".onnx" = true ->
  In f files -> In (f ++ "_data")%string files ->
  selected vs (f ++ "_data") = selected vs f
  /\ (In (f ++ "_data")%string
         (onnx (filter_files_by_variants files (Some vs)))
      <-> In f (onnx (filter_files_by_variants files (Some vs)))).
Proof.
  intros He Hf Hd.
  assert (Hloop : variant_loop (lower (f ++ "_data"))
                    (map normalize_variant vs)
                  = variant_loop (lower f) (map normalize_variant vs)).
  { rewrite lower_app. change (lower "_data") with "_data".
    rewrite !variant_loop_existsb. apply existsb_ext_in.
    intros t _. apply tag_match_data. }
  assert (Hc1 : is_onnx_candidate f = true).
  { unfold is_onnx_candidate. now rewrite He. }
  assert (Hc2 : is_onnx_candidate (f ++ "_data") = true).
  { unfold is_onnx_candidate. apply orb_true_iff. right.
    exact (endswith_app f ".onnx" "_data" He). }
  split.
  - unfold selected. now rewrite Hc1, Hc2, Hloop.
  - rewrite !onnx_In, Hloop. tauto.
Qed.

(** X17 at [onnx/model_q4.onnx] and its companion. *)
Lemma external_data_follows_model_witness :
  let files := ["onnx/model.onnx"; "onnx/model_q4.onnx";
                "onnx/model_q4.onnx_data"] in
  endswith "onnx/model_q4.onnx" ".onnx" = true
  /\ In "onnx/model_q4.onnx" files
  /\ In "onnx/model_q4.onnx_data" files
  /\ (In "onnx/model_q4.onnx_data"
         (onnx (filter_files_by_variants files (Some ["q4"])))
      <-> In "onnx/model_q4.onnx"
            (onnx (filter_files_by_variants files (Some ["q4"])))).
Proof.
  cbv zeta.
  split; [reflexivity |].
  split; [right; left; reflexivity |].
  split; [right; right; left; reflexivity |].
  exact (proj2 (external_data_follows_model
                  ["onnx/model.onnx"; "onnx/model_q4.onnx";
                   "onnx/model_q4.onnx_data"] ["q4"] "onnx/model_q4.onnx"
                  eq_refl
                  (or_intror (or_introl eq_refl))
                  (or_intror (or_intror (or_introl eq_refl))))).
Defined.
